(** * cs2market-export-analyzer: the transaction pipeline of [analyze.py]

    A shallow embedding of the script [src/analyze.py]: header cleaning,
    type normalisation, row dropping, the aggregates written to the four
    JSON documents, and the order in which the script writes its files.

    Conventions of the embedding.
    - Text is a [string] whose characters are code points below 256.
      [str.strip()] and [str.lower()] are written out for that range.
    - A price cell holds one number, a rational ([Q]): every int64 and
      every finite binary64 value is one.  A number that the script
      computes from the cells is kept as an [amount]: the operations of
      pandas and Python applied to the cells, not their result.
      [exact] reads an amount in exact arithmetic; [machine] reads it on
      int64 and binary64 values, as far as the result does not depend on
      how pandas orders a sum.  Infinite prices are outside the model.
    - A data frame is the list of its rows in file order; a cell that
      pandas shows as NaN / None / NaT is the missing cell of its column.
    - The readers of pandas for numbers and dates are not re-implemented:
      a price cell and a date cell record how pandas reads the cell
      (see [price_cell] and [date_cell]). *)

From Stdlib Require Import String Ascii List Sorted Permutation OrdersEx Bool Arith ZArith QArith Qround Qabs Lia Lqa.
From Stdlib Require Import Uint63 PrimFloat.
Import ListNotations.

Close Scope Q_scope.
Open Scope string_scope.

(** ** Text primitives of Python used by the script *)

Module Text.

(** [c.isspace()] for a code point below 256: the characters that
    [str.strip()] removes when called without argument. *)
Definition is_space (c : ascii) : bool :=
  let n := nat_of_ascii c in
  (((9 <=? n) && (n <=? 13)) || ((28 <=? n) && (n <=? 32))
   || (n =? 133) || (n =? 160))%nat.

(** One character of [str.lower()]: A-Z, and the upper-case letters of
    the Latin-1 block (all of 192..222 except the multiplication sign). *)
Definition lower_char (c : ascii) : ascii :=
  let n := nat_of_ascii c in
  if (((65 <=? n) && (n <=? 90))
      || ((192 <=? n) && (n <=? 222) && negb (n =? 215)))%nat
  then ascii_of_nat (n + 32) else c.

Fixpoint lower (s : string) : string :=
  match s with
  | EmptyString => EmptyString
  | String c t => String (lower_char c) (lower t)
  end.

(** [s.lstrip(chars)], the set [chars] given as a predicate. *)
Fixpoint lstrip (p : ascii -> bool) (s : string) : string :=
  match s with
  | EmptyString => EmptyString
  | String c t => if p c then lstrip p t else s
  end.

(** [s.rstrip(chars)]. *)
Fixpoint rstrip (p : ascii -> bool) (s : string) : string :=
  match s with
  | EmptyString => EmptyString
  | String c t =>
      match rstrip p t with
      | EmptyString => if p c then EmptyString else String c EmptyString
      | r => String c r
      end
  end.

(** [s.strip(chars)] removes the characters at both ends. *)
Definition strip_chars (p : ascii -> bool) (s : string) : string :=
  rstrip p (lstrip p s).

(** [s.strip()] *)
Definition strip (s : string) : string := strip_chars is_space s.

(** [s.strip(ch)] for a one-character argument. *)
Definition strip_char (ch : ascii) (s : string) : string :=
  strip_chars (Ascii.eqb ch) s.

(** [needle in hay] on strings: [needle] occurs as a substring. *)
Fixpoint contains (needle hay : string) : bool :=
  prefix needle hay ||
  match hay with
  | EmptyString => false
  | String _ t => contains needle t
  end.

(** [x in xs] for a list of strings. *)
Definition mem (x : string) (xs : list string) : bool :=
  existsb (String.eqb x) xs.

(** First and last character of a text, when it has one. *)
Definition first_char (s : string) : option ascii :=
  match s with EmptyString => None | String c _ => Some c end.

Fixpoint last_char (s : string) : option ascii :=
  match s with
  | EmptyString => None
  | String c EmptyString => Some c
  | String _ t => last_char t
  end.

End Text.
Import Text.

(** ** Line 15: header cleaning *)

Definition dquote : ascii := ascii_of_nat 34.
Definition squote : ascii := ascii_of_nat 39.

(** The comprehension of line 15 for one header: [col.strip()], then
    [.strip] of the double quote, then [.strip] of the single quote. *)
Definition clean_col (col : string) : string :=
  strip_char squote (strip_char dquote (strip col)).

(** ** Lines 35-43: [normalize_type] *)

(** The argument is a cell of the Type column: [None] is the missing
    value ([pd.isna]), [Some s] a text. *)
Definition normalize_type (type_val : option string) : option string :=
  match type_val with
  | None => None
  | Some v =>
      let type_val := lower (strip v) in
      if mem type_val ["purchase"; "buy"; "bought"] then Some "purchase"
      else if mem type_val ["sale"; "sell"; "sold"] then Some "sale"
      else Some type_val
  end.

(** ** Lines 107-120: [categorize_item] *)

Definition categorize_item (market_name : option string) : string :=
  match market_name with
  | None => "Unknown"
  | Some market_name =>
      if contains "Capsule" market_name then "Capsules"
      else if contains "Case" market_name then "Cases"
      else if contains "Charm" market_name then "Charms"
      else if contains "Sticker" market_name then "Stickers"
      else "Weapons"
  end.

(** ** Numbers *)

(** Rounding to the nearest integer, ties to the even neighbour. *)
Definition round_half_even (x : Q) : Z :=
  let f := Qfloor x in
  match (x - inject_Z f ?= 1 # 2)%Q with
  | Lt => f
  | Gt => (f + 1)%Z
  | Eq => if Z.even f then f else (f + 1)%Z
  end.

(** [round(x, 2)] in exact arithmetic: the nearest hundredth, ties to
    the even one. *)
Definition round2 (x : Q) : Q :=
  (inject_Z (round_half_even (x * 100)) / 100)%Q.

(** A number that the script computes, as the operations it applies to
    the cells: pandas carries them out on int64 or binary64 values. *)
Inductive amount : Type :=
| Cell (q : Q)
| SeriesSum (cells : list Q)
| GroupSum (cells : list Q)
| Div100 (a : amount)
| Sub (a b : amount)
| Round2 (a : amount).

(** [Cell q]: the number [q] of a cell, or a literal; [SeriesSum]:
    [Series.sum()] of the cells; [GroupSum]: the sum of one group of
    [groupby(...).sum()]; [Div100 a]: [a / 100]; [Sub a b]: [a - b];
    [Round2 a]: [round(a, 2)]. *)

(** The amount in exact arithmetic. *)
Fixpoint exact (a : amount) : Q :=
  match a with
  | Cell q => q
  | SeriesSum cells => fold_right Qplus 0%Q cells
  | GroupSum cells => fold_right Qplus 0%Q cells
  | Div100 a => (exact a / 100)%Q
  | Sub a b => (exact a - exact b)%Q
  | Round2 a => round2 (exact a)
  end.

(** *** The amount on machine numbers *)

(** A number of pandas: an int64, or a binary64. *)
Inductive machine_value : Type :=
| MInt (z : Z)
| MFloat (f : float).

(** The int64 that a sum or difference of int64 wraps to. *)
Definition wrap64 (z : Z) : Z := ((z + 2 ^ 63) mod 2 ^ 64 - 2 ^ 63)%Z.

Definition in_int64 (z : Z) : bool :=
  ((- 2 ^ 63 <=? z) && (z <? 2 ^ 63))%Z.

(** The binary64 nearest to an int64. *)
Definition float_of_int64 (z : Z) : float :=
  if (z =? - 2 ^ 63)%Z then (-9223372036854775808)%float
  else if (z <? 0)%Z then PrimFloat.opp (PrimFloat.of_uint63 (Uint63.of_Z (- z)))
  else PrimFloat.of_uint63 (Uint63.of_Z z).

Definition to_float (m : machine_value) : float :=
  match m with
  | MInt z => float_of_int64 z
  | MFloat f => f
  end.

Fixpoint is_power_of_two (p : positive) : bool :=
  match p with
  | xH => true
  | xO p' => is_power_of_two p'
  | xI _ => false
  end.

(** A cell of a price column of the given type: in an int64 column a
    whole number in range; in a binary64 column a number that binary64
    holds exactly, here a ratio below 2^53 over a power of two up to
    2^62.  The cell of any other number is not evaluated. *)
Definition machine_cell (int64 : bool) (q : Q) : option machine_value :=
  let q' := Qred q in
  if int64 then
    if (Pos.eqb (Qden q') 1 && in_int64 (Qnum q'))%bool
    then Some (MInt (Qnum q')) else None
  else
    if (is_power_of_two (Qden q') && (Z.abs (Qnum q') <? 2 ^ 53)%Z
        && (Z.pos (Qden q') <? 2 ^ 63)%Z)%bool
    then Some (MFloat (PrimFloat.div (float_of_int64 (Qnum q'))
                                     (float_of_int64 (Z.pos (Qden q')))))
    else None.

Fixpoint machine_cells (int64 : bool) (cells : list Q) : option (list machine_value) :=
  match cells with
  | [] => Some []
  | q :: t =>
      match machine_cell int64 q, machine_cells int64 t with
      | Some m, Some ms => Some (m :: ms)
      | _, _ => None
      end
  end.

(** A sum of cells.  On int64 the sum wraps, in whatever order it is
    taken.  On binary64 the result depends on the order in which pandas
    adds once there are three cells or more, and is evaluated for up to
    two cells only. *)
Definition machine_sum (int64 : bool) (cells : list Q) : option machine_value :=
  match machine_cells int64 cells with
  | None => None
  | Some ms =>
      if int64 then
        Some (MInt (wrap64 (fold_right
                              (fun m acc => match m with
                                            | MInt z => (z + acc)%Z
                                            | MFloat _ => acc
                                            end) 0%Z ms)))
      else
        match ms with
        | [] => Some (MFloat 0%float)
        | [a] => Some (MFloat (to_float a))
        | [a; b] => Some (MFloat (PrimFloat.add (to_float a) (to_float b)))
        | _ => None
        end
  end.

(** Rounding of a binary64 to the nearest integer, ties to even. *)
Definition rint (x : float) : float :=
  if PrimFloat.ltb (PrimFloat.abs x) 4503599627370496%float then
    if PrimFloat.leb 0%float x
    then PrimFloat.sub (PrimFloat.add x 4503599627370496%float) 4503599627370496%float
    else PrimFloat.add (PrimFloat.sub x 4503599627370496%float) 4503599627370496%float
  else x.

(** [round(x, 2)] on a numpy binary64: times 100, to the nearest
    integer, over 100. *)
Definition round2_binary64 (x : float) : float :=
  PrimFloat.div (rint (PrimFloat.mul x 100%float)) 100%float.

(** The amount on machine numbers, for a price column that pandas holds
    as int64 ([int64 = true]) or as binary64. *)
Fixpoint machine (int64 : bool) (a : amount) : option machine_value :=
  match a with
  | Cell q => machine_cell int64 q
  | SeriesSum cells => machine_sum int64 cells
  | GroupSum cells => machine_sum int64 cells
  | Div100 a =>
      match machine int64 a with
      | Some m => Some (MFloat (PrimFloat.div (to_float m) 100%float))
      | None => None
      end
  | Sub a b =>
      match machine int64 a, machine int64 b with
      | Some (MFloat x), Some (MFloat y) => Some (MFloat (PrimFloat.sub x y))
      | _, _ => None
      end
  | Round2 a =>
      match machine int64 a with
      | Some (MFloat x) => Some (MFloat (round2_binary64 x))
      | _ => None
      end
  end.

(** A binary64 that [round(_, 2)] leaves as it is. *)
Definition rounded2 (x : float) : bool := PrimFloat.eqb (round2_binary64 x) x.

(** ** The data frame *)

(** A cell of the price column of the loaded frame.  pandas types the
    column as a whole, and the cell says what the cell of the file is in
    the column so typed.  [PriceNum q]: the number [q], in a column that
    [read_csv] holds as int64 or binary64, or a text that [pd.to_numeric]
    reads as [q]; [PriceText s]: a text that [pd.to_numeric] does not
    read as a number, which in a column left as text includes a number
    written with a decimal comma; [PriceNaN]: the missing value. *)
Inductive price_cell : Type :=
| PriceNaN
| PriceText (s : string)
| PriceNum (q : Q).

(** A cell of the [Acted On] column.  [DayMonth d m]: a text that the
    format [%d %b] reads as day [d] of month [m]; [DateText s]: a text it
    does not read; [Timestamp y m d]: the cell after [pd.to_datetime];
    [DateNaN]: the missing value (NaN before the conversion, NaT after). *)
Inductive date_cell : Type :=
| DateNaN
| DateText (s : string)
| DayMonth (d m : nat)
| Timestamp (y m d : nat).

(** One row, with the cells of the five columns the script reads. *)
Record row : Type := mkRow {
  game_name : option string;
  acted_on : date_cell;
  type_ : option string;
  market_name : option string;
  price : price_cell
}.

(** What [pd.read_csv] returns: the header as written in the file, and
    the rows. *)
Record DataFrame : Type := mkDataFrame {
  columns : list string;
  rows : list row
}.

Definition set_type (t : option string) (r : row) : row :=
  mkRow (game_name r) (acted_on r) t (market_name r) (price r).
Definition set_price (p : price_cell) (r : row) : row :=
  mkRow (game_name r) (acted_on r) (type_ r) (market_name r) p.
Definition set_acted_on (d : date_cell) (r : row) : row :=
  mkRow (game_name r) d (type_ r) (market_name r) (price r).

(** [pd.to_numeric(_, errors=coerce)] on one cell. *)
Definition to_numeric (c : price_cell) : price_cell :=
  match c with
  | PriceNum q => PriceNum q
  | PriceText _ => PriceNaN
  | PriceNaN => PriceNaN
  end.

(** [pd.to_datetime(_, format=%d %b, errors=coerce)] on one cell; the
    year that the format leaves open is 1900. *)
Definition to_datetime (c : date_cell) : date_cell :=
  match c with
  | DayMonth d m => Timestamp 1900 m d
  | Timestamp y m d => Timestamp y m d
  | DateText _ => DateNaN
  | DateNaN => DateNaN
  end.

Definition price_isna (c : price_cell) : bool :=
  match c with PriceNaN => true | _ => false end.
Definition date_isna (c : date_cell) : bool :=
  match c with DateNaN => true | _ => false end.
Definition isna {A : Type} (c : option A) : bool :=
  match c with None => true | Some _ => false end.

(** The number in a price cell, for [sum] and [idxmax], which skip NaN. *)
Definition num (c : price_cell) : Q :=
  match c with PriceNum q => q | _ => 0%Q end.

Definition cell_is (s : string) (c : option string) : bool :=
  match c with Some v => v =? s | None => false end.

(** *** Lines 31-56: from the loaded rows to [cs2_df] *)

(** Line 31 *)
Definition cs2_filter (df : list row) : list row :=
  filter (fun r => cell_is "Counter-Strike 2" (game_name r)) df.

(** Line 45 *)
Definition apply_normalize_type (df : list row) : list row :=
  map (fun r => set_type (normalize_type (type_ r)) r) df.

(** Line 49 *)
Definition apply_to_numeric (df : list row) : list row :=
  map (fun r => set_price (to_numeric (price r)) r) df.

(** Line 50: [dropna] over the price, [Acted On], [Type] and
    [Market Name] columns. *)
Definition dropna_four (df : list row) : list row :=
  filter (fun r => negb (price_isna (price r) || date_isna (acted_on r)
                         || isna (type_ r) || isna (market_name r))) df.

(** Line 54 *)
Definition apply_to_datetime (df : list row) : list row :=
  map (fun r => set_acted_on (to_datetime (acted_on r)) r) df.

(** Line 55 *)
Definition dropna_acted_on (df : list row) : list row :=
  filter (fun r => negb (date_isna (acted_on r))) df.

(** The frame [cs2_df] as it stands at line 59. *)
Definition cs2_df (df : list row) : list row :=
  dropna_acted_on (apply_to_datetime
    (dropna_four (apply_to_numeric (apply_normalize_type (cs2_filter df))))).

(** Line 59: [cs2_df.Type.isin([purchase, sale]).any()] *)
Definition any_valid_type (df : list row) : bool :=
  existsb (fun r => cell_is "purchase" (type_ r) || cell_is "sale" (type_ r)) df.

(** *** Lines 64-72: totals *)

(** The numbers of the price column of a frame; [sum] skips NaN. *)
Definition price_values (df : list row) : list Q :=
  flat_map (fun r => match price r with PriceNum q => [q] | _ => [] end) df.

Definition purchases (df : list row) : list row :=
  filter (fun r => cell_is "purchase" (type_ r)) df.
Definition sales (df : list row) : list row :=
  filter (fun r => cell_is "sale" (type_ r)) df.

Definition total_spent (df : list row) : amount :=
  Div100 (SeriesSum (price_values (purchases df))).
Definition total_earned (df : list row) : amount :=
  Div100 (SeriesSum (price_values (sales df))).
Definition net_flow (df : list row) : amount :=
  Sub (total_earned df) (total_spent df).

(** [Series.idxmax] followed by [.loc]: the scan keeps the row met first
    among those of maximal price. *)
Fixpoint argmax_from (best : row) (rest : list row) : row :=
  match rest with
  | [] => best
  | r :: rest' =>
      argmax_from (if Qle_bool (num (price r)) (num (price best)) then best else r) rest'
  end.

(** Line 72: the row, or the empty dict. *)
Definition highest_transaction (df : list row) : option row :=
  match df with
  | [] => None
  | r :: rest => Some (argmax_from r rest)
  end.

(** *** [groupby] and [value_counts] *)

Fixpoint somes {A : Type} (l : list (option A)) : list A :=
  match l with
  | [] => []
  | Some a :: t => a :: somes t
  | None :: t => somes t
  end.

Section GroupBy.
Variable K : Type.
Variable cmp : K -> K -> comparison.

Definition same_key (a b : K) : bool :=
  match cmp a b with Eq => true | _ => false end.

(** Insertion into an ascending list without repetition. *)
Fixpoint insert_key (k : K) (ks : list K) : list K :=
  match ks with
  | [] => [k]
  | k' :: t =>
      match cmp k k' with
      | Lt => k :: ks
      | Eq => ks
      | Gt => k' :: insert_key k t
      end
  end.

(** The distinct keys in ascending order. *)
Definition sorted_keys (ks : list K) : list K := fold_right insert_key [] ks.

Definition rows_of_key (key : row -> option K) (k : K) (df : list row) : list row :=
  filter (fun r => match key r with Some k' => same_key k' k | None => false end) df.

(** [df.groupby(key)]: one group per distinct key, keys ascending, the
    rows of a group in frame order; rows whose key is missing belong to
    no group. *)
Definition groupby (key : row -> option K) (df : list row) : list (K * list row) :=
  map (fun k => (k, rows_of_key key k df)) (sorted_keys (somes (map key df))).

(** Lookup in a table keyed by [K]. *)
Definition lookup {V : Type} (k : K) (t : list (K * V)) : option V :=
  option_map snd (find (fun e => same_key (fst e) k) t).

(** Strictly ascending keys. *)
Definition ascending (ks : list K) : Prop :=
  StronglySorted (fun a b => cmp a b = Lt) ks.
End GroupBy.

Arguments same_key {K} cmp a b.
Arguments insert_key {K} cmp k ks.
Arguments sorted_keys {K} cmp ks.
Arguments rows_of_key {K} cmp key k df.
Arguments groupby {K} cmp key df.
Arguments lookup {K} cmp {V} k t.
Arguments ascending {K} cmp ks.

Definition pair_compare (a b : string * string) : comparison :=
  match String.compare (fst a) (fst b) with
  | Eq => String.compare (snd a) (snd b)
  | c => c
  end.

Fixpoint distinct (xs : list string) : list string :=
  match xs with
  | [] => []
  | x :: t => x :: filter (fun y => negb (y =? x)) (distinct t)
  end.

Definition count_of (x : string) (xs : list string) : nat :=
  length (filter (String.eqb x) xs).

Fixpoint insert_desc (e : string * nat) (l : list (string * nat)) : list (string * nat) :=
  match l with
  | [] => [e]
  | h :: t => if (snd e <? snd h)%nat then h :: insert_desc e t else e :: l
  end.

(** [Series.value_counts()] of the present values: decreasing counts.
    pandas does not fix the order among equal counts; here the value met
    first comes first. *)
Definition value_counts (xs : list string) : list (string * nat) :=
  fold_right insert_desc [] (map (fun x => (x, count_of x xs)) (distinct xs)).

(** Line 71.  The count table of a non-empty [purchases] is not empty,
    since [cs2_df] has no missing name. *)
Definition most_purchased_item (df : list row) : string :=
  match purchases df with
  | [] => "None"
  | p => match value_counts (somes (map market_name p)) with
         | (n, _) :: _ => n
         | [] => "None"
         end
  end.

(** *** Lines 75-100: the summary *)

Record item_detail : Type := mkItemDetail {
  item_market_name : string;
  transaction_count : nat;
  total_eur : amount;
  type_breakdown : list (string * nat)
}.

Record highest_record : Type := mkHighest {
  hr_market_name : option string;
  price_eur : amount;
  hr_type : option string
}.

Record summary_record : Type := mkSummary {
  s_total_spent : amount;
  s_total_earned : amount;
  s_net_flow : amount;
  s_purchase_count : nat;
  s_sale_count : nat;
  s_most_purchased_item : string;
  s_highest_transaction : highest_record;
  s_item_details : list item_detail
}.

(** Lines 75-84 *)
Definition item_details (df : list row) : list item_detail :=
  map (fun g =>
         mkItemDetail (fst g)
           (length (filter (fun r => negb (price_isna (price r))) (snd g)))
           (Div100 (GroupSum (price_values (snd g))))
           (value_counts (somes (map type_ (snd g)))))
      (groupby String.compare market_name df).

(** Lines 94-98: [.get] with its defaults on the row or the empty dict. *)
Definition highest_transaction_record (df : list row) : highest_record :=
  match highest_transaction df with
  | Some r =>
      mkHighest (market_name r) (Round2 (Div100 (Cell (num (price r))))) (type_ r)
  | None => mkHighest (Some "None") (Round2 (Div100 (Cell 0))) (Some EmptyString)
  end.

(** Lines 87-100 *)
Definition summary (df : list row) : summary_record :=
  mkSummary
    (Round2 (total_spent df))
    (Round2 (total_earned df))
    (Round2 (net_flow df))
    (length (purchases df))
    (length (sales df))
    (most_purchased_item df)
    (highest_transaction_record df)
    (item_details df).

(** *** Lines 122-126: the bar data *)

Record bar_record : Type := mkBar {
  Category : string;
  spent : amount;
  earned : amount
}.

(** A frame indexed by category with one column per type: the column
    labels, and per index label the cells by column. *)
Record wide_frame : Type := mkWide {
  wide_columns : list string;
  wide_rows : list (string * list (string * amount))
}.

(** A Python exception that nothing catches. *)
Inductive result (A : Type) : Type :=
| Ok (a : A)
| Raise (exn : string).
Arguments Ok {A} a.
Arguments Raise {A} exn.

(** Line 122 and the key of the [groupby] of line 123. *)
Definition category_type_key (r : row) : option (string * string) :=
  option_map (fun t => (categorize_item (market_name r), t)) (type_ r).

(** [cs2_df.groupby([Category, Type])[price_col].sum()] *)
Definition category_type_sums (df : list row) : list ((string * string) * amount) :=
  map (fun g => (fst g, GroupSum (price_values (snd g))))
      (groupby pair_compare category_type_key df).

(** [.unstack(fill_value=0) / 100] *)
Definition unstack_div100 (sums : list ((string * string) * amount)) : wide_frame :=
  let index := sorted_keys String.compare (map (fun e => fst (fst e)) sums) in
  let cols := sorted_keys String.compare (map (fun e => snd (fst e)) sums) in
  mkWide cols
    (map (fun c =>
            (c, map (fun t =>
                       (t, Div100 (match lookup pair_compare (c, t) sums with
                                   | Some v => v
                                   | None => Cell 0
                                   end))) cols)) index).

(** [.reset_index().melt(id_vars=Category, value_vars=[purchase, sale], ...)]:
    pandas raises [KeyError] when a label of [value_vars] is not a column
    of the frame; otherwise one long row per value column and index
    label. *)
Definition melt (value_vars : list string) (w : wide_frame)
  : result (list ((string * string) * amount)) :=
  match filter (fun v => negb (mem v ("Category" :: wide_columns w))) value_vars with
  | _ :: _ => Raise "KeyError"
  | [] =>
      Ok (flat_map (fun v =>
            flat_map (fun cr =>
              match lookup String.compare v (snd cr) with
              | Some a => [((fst cr, v), a)]
              | None => []
              end) (wide_rows w)) value_vars)
  end.

(** [.pivot(index=Category, columns=Type, values=Amount).fillna(0)],
    then [reset_index], [rename] and [to_dict(orient=records)]: the
    purchase column under the key spent, the sale column under earned. *)
Definition pivot_records (long : list ((string * string) * amount)) : list bar_record :=
  let cell c t := match lookup pair_compare (c, t) long with
                  | Some a => a
                  | None => Cell 0
                  end in
  map (fun c => mkBar c (cell c "purchase") (cell c "sale"))
      (sorted_keys String.compare (map (fun e => fst (fst e)) long)).

Definition bar_data (df : list row) : result (list bar_record) :=
  match melt ["purchase"; "sale"] (unstack_div100 (category_type_sums df)) with
  | Raise e => Raise e
  | Ok long => Ok (pivot_records long)
  end.

(** *** Lines 132-141: the line data *)

Record line_record : Type := mkLine {
  Date : string;
  line_market_name : string;
  value : amount;
  count : nat
}.

Definition digit (n : nat) : ascii := ascii_of_nat (48 + n mod 10).

Definition two_digits (n : nat) : string :=
  String (digit (n / 10)) (String (digit n) EmptyString).

Definition four_digits (n : nat) : string :=
  String (digit (n / 1000)) (String (digit (n / 100)) (two_digits n)).

(** [.dt.strftime(%Y-%m-%d)] on one cell *)
Definition strftime (c : date_cell) : option string :=
  match c with
  | Timestamp y m d => Some (four_digits y ++ "-" ++ two_digits m ++ "-" ++ two_digits d)
  | _ => None
  end.

Definition date_name_key (r : row) : option (string * string) :=
  match strftime (acted_on r), market_name r with
  | Some d, Some n => Some (d, n)
  | _, _ => None
  end.

Definition line_data (df : list row) : list line_record :=
  map (fun g =>
         mkLine (fst (fst g)) (snd (fst g))
           (Div100 (GroupSum (price_values (snd g))))
           (length (filter (fun r => negb (isna (market_name r))) (snd g))))
      (groupby pair_compare date_name_key df).

(** *** Lines 147-150: the pie data *)

Record pie_record : Type := mkPie {
  name : string;
  pie_value : nat
}.

Definition pie_data (df : list row) : list pie_record :=
  [mkPie "Purchases" (length (purchases df)); mkPie "Sales" (length (sales df))].

(** ** The script as a whole *)

(** A file written with [open(_, w)]. *)
Inductive output_file : Type :=
| SummaryJson (s : summary_record)
| BarDataJson (b : list bar_record)
| LineDataJson (l : list line_record)
| PieDataJson (p : list pie_record)
| IndexHtml.

(** The fatal conditions that the script reports before [exit(1)]. *)
Inductive fatal : Type :=
| MissingFile
| MissingPriceColumn
| MissingColumns (cols : list string)
| NoValidTransactions.

(** How a run ends: it reaches the end of the script, calls [exit(1)],
    or dies of an exception. *)
Inductive ending : Type :=
| Completed
| Exit1 (e : fatal)
| Uncaught (exn : string).

Definition exit_code (e : ending) : Z :=
  match e with
  | Completed => 0
  | Exit1 _ => 1
  | Uncaught _ => 1
  end.

(** A step of the script: from the files written so far to the files
    written after it, and either a value or the end of the run. *)
Definition script (A : Type) : Type :=
  list output_file -> list output_file * (A + ending).

Definition ret {A : Type} (a : A) : script A := fun w => (w, inl a).

Definition bind {A B : Type} (c : script A) (k : A -> script B) : script B :=
  fun w =>
    match c w with
    | (w', inl a) => k a w'
    | (w', inr e) => (w', inr e)
    end.

Definition write (f : output_file) : script unit :=
  fun w => ((w ++ [f])%list, inl tt).

Definition exit1 {A : Type} (e : fatal) : script A := fun w => (w, inr (Exit1 e)).

Definition try_ {A : Type} (r : result A) : script A :=
  fun w => match r with
           | Ok a => (w, inl a)
           | Raise exn => (w, inr (Uncaught exn))
           end.

Notation "x <- c ;; k" := (bind c (fun x => k))
  (at level 61, c at next level, right associativity).
Notation "c ;;; k" := (bind c (fun _ => k))
  (at level 61, right associativity).

Definition required_cols : list string :=
  ["Game Name"; "Acted On"; "Type"; "Market Name"].

(** Line 18 *)
Definition find_price_col (cols : list string) : option string :=
  find (fun col => contains "Price" col && contains "Cents" col) cols.

(** Line 25 *)
Definition missing_cols (cols : list string) : list string :=
  filter (fun col => negb (mem col cols)) required_cols.

(** The script, top to bottom.  The argument is what line 10 finds:
    [None] when the file is absent. *)
Definition main (input : option DataFrame) : script unit :=
  df <- match input with
        | Some df => ret df
        | None => exit1 MissingFile
        end ;;
  let cols := map clean_col (columns df) in
  match find_price_col cols with
  | None => exit1 MissingPriceColumn
  | Some _ => ret tt
  end ;;;
  match missing_cols cols with
  | [] => ret tt
  | m => exit1 (MissingColumns m)
  end ;;;
  let cs2 := cs2_df (rows df) in
  (if any_valid_type cs2 then ret tt else exit1 NoValidTransactions) ;;;
  write (SummaryJson (summary cs2)) ;;;
  bar <- try_ (bar_data cs2) ;;
  write (BarDataJson bar) ;;;
  write (LineDataJson (line_data cs2)) ;;;
  write (PieDataJson (pie_data cs2)) ;;;
  write IndexHtml.

(** A run starts with no file written. *)
Definition run (input : option DataFrame) : list output_file * (unit + ending) :=
  main input [].

Definition written (input : option DataFrame) : list output_file := fst (run input).

Definition outcome (input : option DataFrame) : ending :=
  match snd (run input) with
  | inl _ => Completed
  | inr e => e
  end.

(** ** Lines 325 and 335: the item tooltip of the page *)

(** The JavaScript values that the tooltip expressions handle.  The
    numbers are counts and ratios of counts, never negative, so the only
    infinity is the positive one.  A number is the real number that the
    expression denotes: the rounding of a quotient to binary64 is not
    part of the embedding. *)
Inductive js_value : Type :=
| JsUndefined
| JsNaN
| JsInfinity
| JsNumber (q : Q).

(** Truthiness: [undefined], [NaN] and [0] are falsy. *)
Definition js_truthy (v : js_value) : bool :=
  match v with
  | JsUndefined => false
  | JsNaN => false
  | JsInfinity => true
  | JsNumber q => negb (Qeq_bool q 0)
  end.

(** [a || b] *)
Definition js_or (a b : js_value) : js_value := if js_truthy a then a else b.

(** The conversion that the arithmetic operators apply: [undefined]
    becomes [NaN]. *)
Definition js_to_number (v : js_value) : js_value :=
  match v with
  | JsUndefined => JsNaN
  | _ => v
  end.

(** [a + b] on such values *)
Definition js_add (a b : js_value) : js_value :=
  match js_to_number a, js_to_number b with
  | JsNumber x, JsNumber y => JsNumber (x + y)
  | JsNumber _, JsInfinity => JsInfinity
  | JsInfinity, JsNumber _ => JsInfinity
  | JsInfinity, JsInfinity => JsInfinity
  | _, _ => JsNaN
  end.

(** [a / b] on such values *)
Definition js_div (a b : js_value) : js_value :=
  match js_to_number a, js_to_number b with
  | JsNumber x, JsNumber y =>
      if Qeq_bool y 0 then (if Qeq_bool x 0 then JsNaN else JsInfinity)
      else JsNumber (x / y)
  | JsNumber _, JsInfinity => JsNumber 0
  | JsInfinity, JsNumber _ => JsInfinity
  | _, _ => JsNaN
  end.

(** [a * b] on such values *)
Definition js_mul (a b : js_value) : js_value :=
  match js_to_number a, js_to_number b with
  | JsNumber x, JsNumber y => JsNumber (x * y)
  | JsNumber x, JsInfinity => if Qeq_bool x 0 then JsNaN else JsInfinity
  | JsInfinity, JsNumber y => if Qeq_bool y 0 then JsNaN else JsInfinity
  | JsInfinity, JsInfinity => JsInfinity
  | _, _ => JsNaN
  end.

Definition js_count (n : nat) : js_value := JsNumber (inject_Z (Z.of_nat n)).

(** [item.type_breakdown.purchase] and [.sale]: the count under the key,
    [undefined] when the object has no such key. *)
Definition js_get (key : string) (o : list (string * nat)) : js_value :=
  match find (fun e => fst e =? key) o with
  | Some e => js_count (snd e)
  | None => JsUndefined
  end.

(** Line 325: the two values of the item chart. *)
Definition item_pie_values (tb : list (string * nat)) : list js_value :=
  [js_or (js_get "purchase" tb) (JsNumber 0); js_or (js_get "sale" tb) (JsNumber 0)].

(** Line 335: the divisor of the item tooltip.  The sum binds tighter
    than the two alternatives around it. *)
Definition item_tooltip_divisor (tb : list (string * nat)) : js_value :=
  js_or (js_or (js_get "purchase" tb) (js_add (JsNumber 0) (js_get "sale" tb)))
        (JsNumber 0).

(** Line 335: the percentage of the item tooltip, before [toFixed(1)]. *)
Definition item_tooltip_percent (raw : js_value) (tb : list (string * nat)) : js_value :=
  js_mul (js_div raw (item_tooltip_divisor tb)) (JsNumber 100).

(** Equality of such values, numbers up to [Qeq]. *)
Definition js_eq (a b : js_value) : Prop :=
  match a, b with
  | JsNumber x, JsNumber y => (x == y)%Q
  | JsUndefined, JsUndefined => True
  | JsNaN, JsNaN => True
  | JsInfinity, JsInfinity => True
  | _, _ => False
  end.

(** ** Vocabulary of the properties *)

(** [occurs n h]: the text [n] is a substring of [h]. *)
Definition occurs (n h : string) : Prop := exists a b, h = a ++ n ++ b.

Definition purchase_words : list string := ["purchase"; "buy"; "bought"].
Definition sale_words : list string := ["sale"; "sell"; "sold"].

Definition five_categories : list string :=
  ["Capsules"; "Cases"; "Charms"; "Stickers"; "Weapons"].

(** The characters that header cleaning removes at either end. *)
Definition is_trim_char (c : ascii) : bool :=
  is_space c || Ascii.eqb dquote c || Ascii.eqb squote c.

(** A header that neither starts nor ends with such a character. *)
Definition already_clean (h : string) : bool :=
  match first_char h, last_char h with
  | Some a, Some b => negb (is_trim_char a) && negb (is_trim_char b)
  | _, _ => true
  end.

(** What lines 45-54 make of one row that is kept. *)
Definition process (r : row) : row :=
  set_acted_on (to_datetime (acted_on r))
    (set_price (to_numeric (price r))
       (set_type (normalize_type (type_ r)) r)).

(** The rows of the loaded frame that reach [cs2_df]. *)
Definition retained (r : row) : bool :=
  cell_is "Counter-Strike 2" (game_name r)
  && negb (price_isna (to_numeric (price r)) || date_isna (acted_on r)
           || isna (normalize_type (type_ r)) || isna (market_name r))
  && negb (date_isna (to_datetime (acted_on r))).

(** The rows of one category and one type. *)
Definition category_rows (c t : string) (df : list row) : list row :=
  filter (fun r => (categorize_item (market_name r) =? c) && cell_is t (type_ r)) df.

(** Some row of the frame has type [t]. *)
Definition has_type (t : string) (df : list row) : bool :=
  existsb (fun r => cell_is t (type_ r)) df.

(** The category [c] occurs in the frame. *)
Definition occurring_category (c : string) (df : list row) : Prop :=
  exists r, In r df /\ type_ r <> None /\ categorize_item (market_name r) = c.

(** The column labels and the index labels of the frame that line 123
    builds. *)
Definition type_columns (df : list row) : list string :=
  sorted_keys String.compare (map (fun e => snd (fst e)) (category_type_sums df)).
Definition category_index (df : list row) : list string :=
  sorted_keys String.compare (map (fun e => fst (fst e)) (category_type_sums df)).

(** The amount of one category and one type, in currency units: the
    group sum over 100, and the fill value 0 over 100 for a pair without
    rows. *)
Definition category_amount (df : list row) (c t : string) : amount :=
  Div100 (match category_rows c t df with
          | [] => Cell 0
          | g => GroupSum (price_values g)
          end).

(** The long frame that [melt] returns when both value columns exist. *)
Definition melted (df : list row) : list ((string * string) * amount) :=
  flat_map (fun v => map (fun c => ((c, v), category_amount df c v)) (category_index df))
           ["purchase"; "sale"].

(** The rows of one item, and the rows of one day and one item. *)
Definition item_rows (n : string) (df : list row) : list row :=
  filter (fun r => cell_is n (market_name r)) df.

Definition line_rows (d n : string) (df : list row) : list row :=
  filter (fun r => cell_is d (strftime (acted_on r)) && cell_is n (market_name r)) df.



(** Whether the number written for an amount is rounded to two decimal
    places, for a price column held as int64 or as binary64. *)
Definition written_rounded (int64 : bool) (a : amount) : option bool :=
  option_map (fun m => rounded2 (to_float m)) (machine int64 a).

(** The binary64 nearest to 0.01. *)
Definition hundredth : float := PrimFloat.div 1 100.

(** [abs(total_spent + net_flow - total_earned)] on the three numbers
    that the summary writes, for a price column held as int64 or as
    binary64. *)
Definition balance_gap (int64 : bool) (s : summary_record) : option float :=
  match machine int64 (s_total_spent s), machine int64 (s_net_flow s),
        machine int64 (s_total_earned s) with
  | Some (MFloat ts), Some (MFloat nf), Some (MFloat te) =>
      Some (PrimFloat.abs (PrimFloat.sub (PrimFloat.add ts nf) te))
  | _, _, _ => None
  end.

(** ** Sample inputs *)

Definition sample_header : list string :=
  [" Game Name"; "Acted On"; "Type"; "Market Name"; "Price in Cents"].

Definition row_sold_redline : row :=
  mkRow (Some "Counter-Strike 2") (DayMonth 5 1) (Some "Sold")
        (Some "AK-47 | Redline") (PriceNum 1050).

(** A purchase of ten and a half cents. *)
Definition row_buy_case : row :=
  mkRow (Some "Counter-Strike 2") (DayMonth 6 1) (Some "buy")
        (Some "Fracture Case") (PriceNum (21 # 2)).

Definition row_trade_capsule : row :=
  mkRow (Some "Counter-Strike 2") (DayMonth 6 1) (Some "Trade")
        (Some "Sticker Capsule") (PriceNum 7).

Definition row_dota : row :=
  mkRow (Some "Dota 2") (DayMonth 6 1) (Some "buy") (Some "Arcana") (PriceNum 5).

Definition row_no_name : row :=
  mkRow (Some "Counter-Strike 2") (DayMonth 7 1) (Some "sale") None (PriceNum 5).

Definition sample_frame : DataFrame :=
  mkDataFrame sample_header
    [row_sold_redline; row_buy_case; row_dota; row_trade_capsule; row_no_name].

(** A history with purchases and no sale. *)
Definition purchases_only_frame : DataFrame :=
  mkDataFrame sample_header [row_buy_case].


(** A history with prices in eighths of a cent. *)
Definition eighths_frame : DataFrame :=
  mkDataFrame sample_header
    [mkRow (Some "Counter-Strike 2") (DayMonth 5 1) (Some "purchase")
       (Some "Fracture Case") (PriceNum (77 # 8));
     mkRow (Some "Counter-Strike 2") (DayMonth 6 1) (Some "sale")
       (Some "AK-47 | Redline") (PriceNum (235 # 8))].

(** A file with the headers and no data row. *)
Definition no_rows_frame : DataFrame := mkDataFrame sample_header [].

(** The bar data of the sample frame. *)
Definition sample_bar : list bar_record :=
  match bar_data (cs2_df (rows sample_frame)) with
  | Ok b => b
  | Raise _ => []
  end.

(** ** Vocabulary of the further properties *)

(** Every character of a text satisfies [p]. *)
Fixpoint string_forallb (p : ascii -> bool) (s : string) : bool :=
  match s with
  | EmptyString => true
  | String c t => p c && string_forallb p t
  end.

(** The test of line 18 on one header. *)
Definition price_header (col : string) : Prop :=
  occurs "Price" col /\ occurs "Cents" col.

(** The rows that are neither purchases nor sales. *)
Definition other_rows (df : list row) : list row :=
  filter (fun r => negb (cell_is "purchase" (type_ r) || cell_is "sale" (type_ r))) df.

(** A date cell as [pd.read_csv] leaves it: not yet a timestamp. *)
Definition as_loaded (c : date_cell) : bool :=
  match c with
  | Timestamp _ _ _ => false
  | _ => true
  end.

(** The number of purchase rows of one item. *)
Definition purchases_of (n : string) (df : list row) : nat :=
  length (item_rows n (purchases df)).

(** Counts in decreasing order. *)
Definition descending (l : list (string * nat)) : Prop :=
  StronglySorted (fun a b => (snd b <= snd a)%nat) l.

(** The number of rows of one type among the rows of one item. *)
Definition typed_rows_of (n t : string) (df : list row) : nat :=
  length (filter (fun r => cell_is t (type_ r)) (item_rows n df)).

(** * Properties *)

(** ** The functions on sample values *)

Example normalize_type_BUY : normalize_type (Some "BUY") = Some "purchase".
Proof. reflexivity. Qed.

Example normalize_type_Sold : normalize_type (Some " Sold ") = Some "sale".
Proof. reflexivity. Qed.

Example normalize_type_Trade : normalize_type (Some "Trade") = Some "trade".
Proof. reflexivity. Qed.

Example categorize_redline : categorize_item (Some "AK-47 | Redline") = "Weapons".
Proof. reflexivity. Qed.

Example categorize_capsule_case :
  categorize_item (Some "Capsule Case 2024") = "Capsules"
  /\ categorize_item (Some "Case of Capsule") = "Capsules".
Proof. split; reflexivity. Qed.

Example clean_col_quoted :
  clean_col (" " ++ String dquote "Game Name" ++ String dquote " ") = "Game Name".
Proof. reflexivity. Qed.

(** ** Text *)

Section TextFacts.

Lemma prefix_app (n h : string) :
  prefix n h = true <-> exists b, h = n ++ b.
Proof.
  revert h; induction n as [|c n IH]; intros h.
  - split; [intros _; exists h; reflexivity | intros _; now destruct h].
  - destruct h as [|d h]; simpl.
    + split; [discriminate | intros [b Hb]; discriminate].
    + destruct (ascii_dec c d) as [->|Hne].
      * rewrite IH. split; intros [b Hb]; exists b; [now rewrite Hb | now inversion Hb].
      * split; [discriminate | intros [b Hb]; inversion Hb; subst; now elim Hne].
Qed.

Lemma contains_occurs (n h : string) : contains n h = true <-> occurs n h.
Proof.
  unfold occurs. induction h as [|c h IH].
  - cbn [contains]. rewrite orb_false_r, prefix_app. split.
    + intros [b Hb]. exists EmptyString, b. exact Hb.
    + intros [a [b Hab]]. destruct a; simpl in Hab.
      * exists b; exact Hab.
      * discriminate.
  - cbn [contains]. rewrite orb_true_iff, prefix_app, IH. split.
    + intros [[b Hb] | [a [b Hab]]].
      * exists EmptyString, b. exact Hb.
      * exists (String c a), b. simpl. now rewrite Hab.
    + intros [a [b Hab]]. destruct a as [|d a]; simpl in Hab.
      * left. exists b; exact Hab.
      * right. inversion Hab. exists a, b. reflexivity.
Qed.

Lemma contains_not_occurs (n h : string) : contains n h = false <-> ~ occurs n h.
Proof.
  rewrite <- contains_occurs. destruct (contains n h); split; congruence.
Qed.

Lemma mem_In (x : string) (xs : list string) : mem x xs = true <-> In x xs.
Proof.
  unfold mem. rewrite existsb_exists. split.
  - intros [y [Hy Heq]]. apply String.eqb_eq in Heq. now subst.
  - intros H. exists x. split; [exact H | apply String.eqb_refl].
Qed.

Lemma mem_not_In (x : string) (xs : list string) : mem x xs = false <-> ~ In x xs.
Proof.
  rewrite <- mem_In. destruct (mem x xs); split; congruence.
Qed.

Lemma is_space_lower_char (c : ascii) : is_space (lower_char c) = is_space c.
Proof.
  destruct c as [[] [] [] [] [] [] [] []]; reflexivity.
Qed.

Lemma lower_lstrip (s : string) :
  lower (lstrip is_space s) = lstrip is_space (lower s).
Proof.
  induction s as [|c s IH]; simpl; [reflexivity|].
  rewrite is_space_lower_char. destruct (is_space c); [exact IH | reflexivity].
Qed.

Lemma lower_rstrip (s : string) :
  lower (rstrip is_space s) = rstrip is_space (lower s).
Proof.
  induction s as [|c s IH]; simpl; [reflexivity|].
  rewrite <- IH, is_space_lower_char.
  destruct (rstrip is_space s); simpl; [destruct (is_space c)|]; reflexivity.
Qed.

Lemma lower_strip (s : string) : lower (strip s) = strip (lower s).
Proof.
  unfold strip, strip_chars. now rewrite lower_rstrip, lower_lstrip.
Qed.

(** A text that neither starts nor ends with a character of the set is
    left alone by [strip]. *)
Lemma lstrip_id (p : ascii -> bool) (s : string) :
  match first_char s with Some c => p c = false | None => True end ->
  lstrip p s = s.
Proof.
  destruct s as [|c s]; simpl; [reflexivity|]. now intros ->.
Qed.

Lemma rstrip_id (p : ascii -> bool) (s : string) :
  match last_char s with Some c => p c = false | None => True end ->
  rstrip p s = s.
Proof.
  induction s as [|c s IH]; [reflexivity|].
  cbn [last_char rstrip]. destruct s as [|d s].
  - simpl. now intros ->.
  - intros H. rewrite (IH H). reflexivity.
Qed.

Lemma last_char_cons (c : ascii) (s : string) :
  exists b, last_char (String c s) = Some b.
Proof.
  revert c; induction s as [|d s IH]; intros c.
  - exists c; reflexivity.
  - destruct (IH d) as [b Hb]. exists b. exact Hb.
Qed.

Lemma strip_chars_id (p : ascii -> bool) (s : string) :
  match first_char s with Some c => p c = false | None => True end ->
  match last_char s with Some c => p c = false | None => True end ->
  strip_chars p s = s.
Proof.
  intros Hf Hl. unfold strip_chars. rewrite (lstrip_id p s Hf). now apply rstrip_id.
Qed.

End TextFacts.

(** ** [normalize_type] *)

Lemma lower_strip_of_word (v : string) :
  In (lower v) (purchase_words ++ sale_words)%list -> lower (strip v) = lower v.
Proof.
  intros H. rewrite lower_strip. simpl in H.
  repeat (destruct H as [<- | H]; [reflexivity|]). contradiction.
Qed.

Lemma normalize_type_Some (v : string) :
  normalize_type (Some v) =
  if mem (lower (strip v)) purchase_words then Some "purchase"
  else if mem (lower (strip v)) sale_words then Some "sale"
  else Some (lower (strip v)).
Proof. reflexivity. Qed.

(** C2, as the code has it.  A type whose lower-cased text is purchase,
    buy or bought becomes exactly purchase, one whose lower-cased text is
    sale, sell or sold becomes exactly sale, and surrounding whitespace
    does not prevent the match; the missing value becomes the null value;
    every other text is returned stripped of surrounding whitespace and
    lower-cased. *)
Theorem normalize_type_cases (v : string) :
  (In (lower v) purchase_words -> normalize_type (Some v) = Some "purchase")
  /\ (In (lower v) sale_words -> normalize_type (Some v) = Some "sale")
  /\ (In (lower (strip v)) purchase_words -> normalize_type (Some v) = Some "purchase")
  /\ (In (lower (strip v)) sale_words -> normalize_type (Some v) = Some "sale")
  /\ (~ In (lower (strip v)) (purchase_words ++ sale_words)%list ->
      normalize_type (Some v) = Some (lower (strip v)))
  /\ normalize_type None = None.
Proof.
  assert (P : In (lower (strip v)) purchase_words ->
              normalize_type (Some v) = Some "purchase").
  { intros H. rewrite normalize_type_Some.
    apply mem_In in H. now rewrite H. }
  assert (S : In (lower (strip v)) sale_words ->
              normalize_type (Some v) = Some "sale").
  { intros H. rewrite normalize_type_Some.
    destruct (mem (lower (strip v)) purchase_words) eqn:E.
    - apply mem_In in E. simpl in H, E. exfalso. intuition congruence.
    - apply mem_In in H. now rewrite H. }
  repeat split; auto.
  - intros H. apply P. rewrite lower_strip_of_word; [exact H|].
    apply in_or_app; now left.
  - intros H. apply S. rewrite lower_strip_of_word; [exact H|].
    apply in_or_app; now right.
  - intros H. rewrite normalize_type_Some.
    destruct (mem (lower (strip v)) purchase_words) eqn:E1.
    { apply mem_In in E1. elim H. apply in_or_app; now left. }
    destruct (mem (lower (strip v)) sale_words) eqn:E2.
    { apply mem_In in E2. elim H. apply in_or_app; now right. }
    reflexivity.
Qed.

Lemma normalize_type_cases_witness :
  normalize_type (Some "BUY") = Some "purchase"
  /\ normalize_type (Some "Sold") = Some "sale"
  /\ normalize_type (Some " bought ") = Some "purchase"
  /\ normalize_type (Some " Sell") = Some "sale"
  /\ normalize_type (Some " Trade ") = Some "trade".
Proof.
  split; [apply (proj1 (normalize_type_cases "BUY")); simpl; auto|].
  split; [apply (proj1 (proj2 (normalize_type_cases "Sold"))); simpl; auto|].
  split; [apply (proj1 (proj2 (proj2 (normalize_type_cases " bought ")))); simpl; auto|].
  split; [apply (proj1 (proj2 (proj2 (proj2 (normalize_type_cases " Sell"))))); simpl; auto|].
  apply (proj1 (proj2 (proj2 (proj2 (proj2 (normalize_type_cases " Trade ")))))).
  simpl. intuition discriminate.
Defined.

(** C2 as the claim words it fails: a text that is none of the six words
    is not returned unchanged. *)
Lemma normalize_type_other_changed :
  ~ (forall v : string,
       ~ In (lower v) (purchase_words ++ sale_words)%list ->
       normalize_type (Some v) = Some v).
Proof.
  intros H. specialize (H "Trade").
  assert (N : ~ In (lower "Trade") (purchase_words ++ sale_words)%list).
  { simpl. intuition discriminate. }
  specialize (H N). discriminate H.
Qed.

(** ** [categorize_item] *)

(** C3.  On every item name the classifier returns one of the five
    categories, and which one is fixed by the first of the substrings
    Capsule, Case, Charm, Sticker that occurs in the name, Weapons when
    none does. *)
Theorem categorize_item_first_match (market_name : string) :
  In (categorize_item (Some market_name)) five_categories
  /\ (occurs "Capsule" market_name ->
      categorize_item (Some market_name) = "Capsules")
  /\ (~ occurs "Capsule" market_name -> occurs "Case" market_name ->
      categorize_item (Some market_name) = "Cases")
  /\ (~ occurs "Capsule" market_name -> ~ occurs "Case" market_name ->
      occurs "Charm" market_name ->
      categorize_item (Some market_name) = "Charms")
  /\ (~ occurs "Capsule" market_name -> ~ occurs "Case" market_name ->
      ~ occurs "Charm" market_name -> occurs "Sticker" market_name ->
      categorize_item (Some market_name) = "Stickers")
  /\ (~ occurs "Capsule" market_name -> ~ occurs "Case" market_name ->
      ~ occurs "Charm" market_name -> ~ occurs "Sticker" market_name ->
      categorize_item (Some market_name) = "Weapons").
Proof.
  unfold categorize_item, five_categories.
  rewrite <- !contains_occurs.
  destruct (contains "Capsule" market_name);
    destruct (contains "Case" market_name);
    destruct (contains "Charm" market_name);
    destruct (contains "Sticker" market_name);
    simpl; intuition congruence.
Qed.

Lemma categorize_item_first_match_witness :
  categorize_item (Some "Sticker Capsule Case") = "Capsules"
  /\ categorize_item (Some "Charm | Fracture Case") = "Cases"
  /\ categorize_item (Some "AK-47 | Redline") = "Weapons".
Proof.
  split; [|split].
  - apply (proj1 (proj2 (categorize_item_first_match "Sticker Capsule Case"))).
    exists "Sticker ", " Case". reflexivity.
  - apply (proj1 (proj2 (proj2 (categorize_item_first_match "Charm | Fracture Case")))).
    + apply contains_not_occurs. reflexivity.
    + exists "Charm | Fracture ", EmptyString. reflexivity.
  - apply (proj2 (proj2 (proj2 (proj2 (proj2
             (categorize_item_first_match "AK-47 | Redline"))))));
      apply contains_not_occurs; reflexivity.
Defined.

(** ** Header cleaning *)

Lemma is_trim_char_false (c : ascii) :
  is_trim_char c = false ->
  is_space c = false /\ Ascii.eqb dquote c = false /\ Ascii.eqb squote c = false.
Proof.
  unfold is_trim_char. intros H.
  apply orb_false_iff in H as [H H3]. apply orb_false_iff in H as [H1 H2]. auto.
Qed.

(** C9, as the code has it.  A header that neither starts nor ends with
    whitespace, a double quote or a single quote is returned unchanged. *)
Theorem clean_col_clean_header (h : string) :
  already_clean h = true -> clean_col h = h.
Proof.
  unfold already_clean, clean_col, strip, strip_char. intros H.
  destruct h as [|x h']; [reflexivity|].
  destruct (last_char_cons x h') as [b Hb].
  rewrite Hb in H. cbn [first_char] in H.
  apply andb_true_iff in H as [Ha Hl].
  apply negb_true_iff, is_trim_char_false in Ha.
  apply negb_true_iff, is_trim_char_false in Hl.
  assert (F : forall p : ascii -> bool,
             p x = false -> p b = false ->
             strip_chars p (String x h') = String x h').
  { intros p Hx Hpb. apply strip_chars_id; [exact Hx | now rewrite Hb]. }
  rewrite (F is_space), (F (Ascii.eqb dquote)), (F (Ascii.eqb squote));
    tauto.
Qed.

Lemma clean_col_clean_header_witness : clean_col "Game Name" = "Game Name".
Proof. apply clean_col_clean_header. reflexivity. Defined.

(** C9 as the claim words it fails: a second pass can change the result
    of the first.  The header is the text space-x-space between double
    quotes. *)
Lemma clean_col_not_idempotent :
  ~ (forall h : string, clean_col (clean_col h) = clean_col h).
Proof.
  intros H.
  specialize (H (String dquote (" x " ++ String dquote EmptyString))).
  vm_compute in H. discriminate H.
Qed.

(** ** From the loaded frame to [cs2_df] *)

Lemma cs2_df_map_filter (df : list row) :
  cs2_df df = map process (filter retained df).
Proof.
  unfold cs2_df, dropna_acted_on, apply_to_datetime, dropna_four,
    apply_to_numeric, apply_normalize_type, cs2_filter.
  induction df as [|[g a t n p] df IH]; [reflexivity|].
  cbn [filter]. unfold retained at 1. cbn [game_name price acted_on type_ market_name].
  destruct (cell_is "Counter-Strike 2" g); [|exact IH].
  cbn [map filter set_type set_price set_acted_on
       price acted_on type_ market_name game_name andb].
  unfold process at 1.
  destruct p, a, (normalize_type t) eqn:Et, n; simpl; rewrite ?Et;
    try exact IH; rewrite IH; reflexivity.
Qed.

Lemma in_cs2_df (df : list row) (r : row) :
  In r (cs2_df df) <-> exists r0, In r0 df /\ retained r0 = true /\ r = process r0.
Proof.
  rewrite cs2_df_map_filter, in_map_iff. split.
  - intros [r0 [E H]]. apply filter_In in H as [H1 H2]. exists r0. auto.
  - intros [r0 [H1 [H2 E]]]. exists r0. split; [auto|]. apply filter_In; auto.
Qed.

Lemma retained_cells (r0 : row) :
  retained r0 = true ->
  (exists q, price r0 = PriceNum q /\ price (process r0) = PriceNum q)
  /\ (exists n, market_name (process r0) = Some n)
  /\ (exists t, type_ (process r0) = Some t)
  /\ (exists y m d, acted_on (process r0) = Timestamp y m d).
Proof.
  unfold retained, process. destruct r0 as [g a t n p]. simpl.
  intros H. apply andb_true_iff in H as [H Hd].
  apply andb_true_iff in H as [_ H].
  apply negb_true_iff in H.
  apply orb_false_iff in H as [H Hn]. apply orb_false_iff in H as [H Ht].
  apply orb_false_iff in H as [Hp Ha].
  repeat split.
  - destruct p; try discriminate. eauto.
  - destruct n; try discriminate. eauto.
  - destruct (normalize_type t); try discriminate. eauto.
  - destruct a; try discriminate; simpl; eauto.
Qed.

(** C6, as the code has it.  Every row of [cs2_df] comes from a loaded
    row whose price cell reads as a number and carries that very number,
    of either sign; a loaded row whose price fails the coercion has no
    image in [cs2_df]. *)
Theorem cs2_df_price_numeric (df : list row) :
  (forall r, In r (cs2_df df) ->
     exists r0 q, In r0 df /\ r = process r0
                  /\ price r0 = PriceNum q /\ price r = PriceNum q)
  /\ (forall r0, In r0 df -> to_numeric (price r0) = PriceNaN ->
        ~ In (process r0) (cs2_df df)).
Proof.
  split.
  - intros r H. apply in_cs2_df in H as [r0 [H0 [Hk ->]]].
    destruct (retained_cells r0 Hk) as [[q [Hq Hq']] _].
    exists r0, q. auto.
  - intros r0 _ Hnan H. apply in_cs2_df in H as [r1 [_ [Hk E]]].
    destruct (retained_cells r1 Hk) as [[q [_ Hq']] _].
    rewrite <- E in Hq'. unfold process in Hq'.
    destruct r0 as [g a t n p]. simpl in Hq', Hnan. congruence.
Qed.

Lemma cs2_df_price_numeric_witness :
  exists r0 q,
    In r0 [mkRow (Some "Counter-Strike 2") (DayMonth 5 1) (Some "Sold")
             (Some "AK-47 | Redline") (PriceNum 1050)]
    /\ mkRow (Some "Counter-Strike 2") (Timestamp 1900 1 5) (Some "sale")
         (Some "AK-47 | Redline") (PriceNum 1050) = process r0
    /\ price r0 = PriceNum q
    /\ price (mkRow (Some "Counter-Strike 2") (Timestamp 1900 1 5) (Some "sale")
                (Some "AK-47 | Redline") (PriceNum 1050)) = PriceNum q.
Proof.
  apply (proj1 (cs2_df_price_numeric
                  [mkRow (Some "Counter-Strike 2") (DayMonth 5 1) (Some "Sold")
                     (Some "AK-47 | Redline") (PriceNum 1050)])).
  simpl. left. reflexivity.
Defined.

(** C6 as the claim words it fails: a row with a negative price is
    kept. *)
Lemma cs2_df_keeps_negative_price :
  ~ (forall (df : list row) (r : row),
       In r (cs2_df df) -> exists q, price r = PriceNum q /\ (0 <= q)%Q).
Proof.
  intros H.
  destruct (H [mkRow (Some "Counter-Strike 2") (DayMonth 5 1) (Some "buy")
                 (Some "Fracture Case") (PriceNum (-5))]
              (mkRow (Some "Counter-Strike 2") (Timestamp 1900 1 5) (Some "purchase")
                 (Some "Fracture Case") (PriceNum (-5))))
    as [q [Hq Hpos]].
  - simpl. left. reflexivity.
  - simpl in Hq. injection Hq as <-. revert Hpos. unfold Qle. simpl. lia.
Qed.

(** ** The run *)

(** The run on a file that is present, case by case. *)
Lemma run_Some (df : DataFrame) :
  run (Some df) =
  let cols := map clean_col (columns df) in
  let cs2 := cs2_df (rows df) in
  match find_price_col cols with
  | None => ([], inr (Exit1 MissingPriceColumn))
  | Some _ =>
      match missing_cols cols with
      | c :: m => ([], inr (Exit1 (MissingColumns (c :: m))))
      | [] =>
          if any_valid_type cs2 then
            match bar_data cs2 with
            | Raise exn => ([SummaryJson (summary cs2)], inr (Uncaught exn))
            | Ok bar =>
                ([SummaryJson (summary cs2); BarDataJson bar;
                  LineDataJson (line_data cs2); PieDataJson (pie_data cs2);
                  IndexHtml], inl tt)
            end
          else ([], inr (Exit1 NoValidTransactions))
      end
  end.
Proof.
  unfold run, main, bind, ret, exit1, write, try_. cbn zeta.
  destruct (find_price_col (map clean_col (columns df))); [|reflexivity].
  destruct (missing_cols (map clean_col (columns df))); [|reflexivity].
  destruct (any_valid_type (cs2_df (rows df))); [|reflexivity].
  destruct (bar_data (cs2_df (rows df))); reflexivity.
Qed.

Lemma run_None : run None = ([], inr (Exit1 MissingFile)).
Proof. reflexivity. Qed.

(** Whatever file a run writes, it writes after the checks of lines 9-61
    have passed. *)
Lemma written_inv (input : option DataFrame) (f : output_file) :
  In f (written input) ->
  exists df,
    input = Some df
    /\ any_valid_type (cs2_df (rows df)) = true
    /\ (f = SummaryJson (summary (cs2_df (rows df)))
        \/ exists bar,
             bar_data (cs2_df (rows df)) = Ok bar
             /\ (f = BarDataJson bar
                 \/ f = LineDataJson (line_data (cs2_df (rows df)))
                 \/ f = PieDataJson (pie_data (cs2_df (rows df)))
                 \/ f = IndexHtml)).
Proof.
  unfold written. destruct input as [df|]; [|rewrite run_None; intros []].
  rewrite run_Some. cbn zeta.
  destruct (find_price_col _); [|intros []].
  destruct (missing_cols _); [|intros []].
  destruct (any_valid_type _) eqn:Ev; [|intros []].
  destruct (bar_data _) as [bar|exn] eqn:Eb; simpl; intros H; exists df;
    (split; [reflexivity|split; [exact Ev|]]).
  - destruct H as [<-|H]; [now left|right].
    exists bar. split; [exact Eb|]. intuition.
  - destruct H as [<-|[]]. now left.
Qed.

Lemma any_valid_type_false (df : list row) :
  (forall r, In r df -> type_ r <> Some "purchase" /\ type_ r <> Some "sale") ->
  any_valid_type df = false.
Proof.
  intros H. unfold any_valid_type.
  destruct (existsb _ df) eqn:E; [|reflexivity].
  apply existsb_exists in E as [r [Hr Ht]].
  destruct (H r Hr) as [Hp Hs]. unfold cell_is in Ht.
  destruct (type_ r) as [t|]; [|discriminate].
  apply orb_true_iff in Ht as [Ht|Ht]; apply String.eqb_eq in Ht; subst; congruence.
Qed.

(** C4.  When no row of [cs2_df] has type purchase or sale, the run
    writes no file at all and ends with exit code 1; when the header
    checks of lines 18-28 pass, the exit is the one of line 61. *)
Theorem no_valid_transactions_exit (df : DataFrame) :
  (forall r, In r (cs2_df (rows df)) ->
     type_ r <> Some "purchase" /\ type_ r <> Some "sale") ->
  written (Some df) = []
  /\ exit_code (outcome (Some df)) = 1%Z
  /\ (forall c, find_price_col (map clean_col (columns df)) = Some c ->
      missing_cols (map clean_col (columns df)) = [] ->
      outcome (Some df) = Exit1 NoValidTransactions).
Proof.
  intros H. apply any_valid_type_false in H.
  unfold written, outcome. rewrite run_Some. cbn zeta. rewrite H.
  destruct (find_price_col _) as [c|]; [|repeat split; intros; discriminate].
  destruct (missing_cols _); repeat split; intros; try discriminate; reflexivity.
Qed.

Lemma no_valid_transactions_exit_witness :
  written (Some (mkDataFrame
     ["Game Name"; "Acted On"; "Type"; "Market Name"; "Price in Cents"]
     [mkRow (Some "Counter-Strike 2") (DayMonth 6 1) (Some "Trade")
        (Some "Sticker Capsule") (PriceNum 7);
      mkRow (Some "Dota 2") (DayMonth 6 1) (Some "buy") (Some "Arcana") (PriceNum 5)]))
  = []
  /\ exit_code (outcome (Some (mkDataFrame
     ["Game Name"; "Acted On"; "Type"; "Market Name"; "Price in Cents"]
     [mkRow (Some "Counter-Strike 2") (DayMonth 6 1) (Some "Trade")
        (Some "Sticker Capsule") (PriceNum 7);
      mkRow (Some "Dota 2") (DayMonth 6 1) (Some "buy") (Some "Arcana") (PriceNum 5)])))
     = 1%Z
  /\ outcome (Some (mkDataFrame
     ["Game Name"; "Acted On"; "Type"; "Market Name"; "Price in Cents"]
     [mkRow (Some "Counter-Strike 2") (DayMonth 6 1) (Some "Trade")
        (Some "Sticker Capsule") (PriceNum 7);
      mkRow (Some "Dota 2") (DayMonth 6 1) (Some "buy") (Some "Arcana") (PriceNum 5)]))
     = Exit1 NoValidTransactions.
Proof.
  destruct (no_valid_transactions_exit (mkDataFrame
     ["Game Name"; "Acted On"; "Type"; "Market Name"; "Price in Cents"]
     [mkRow (Some "Counter-Strike 2") (DayMonth 6 1) (Some "Trade")
        (Some "Sticker Capsule") (PriceNum 7);
      mkRow (Some "Dota 2") (DayMonth 6 1) (Some "buy") (Some "Arcana") (PriceNum 5)]))
    as [W [X O]].
  - simpl. intros r [<-|[]]. split; discriminate.
  - split; [exact W|]. split; [exact X|].
    apply (O "Price in Cents"); reflexivity.
Defined.

(** ** The highest transaction *)

Lemma argmax_from_first_max (rest b1 a1 : list row) (best : row) :
  (forall x, In x b1 -> (num (price x) < num (price best))%Q) ->
  (forall x, In x a1 -> (num (price x) <= num (price best))%Q) ->
  exists before after,
    (b1 ++ best :: a1 ++ rest)%list = (before ++ argmax_from best rest :: after)%list
    /\ (forall x, In x before ->
          (num (price x) < num (price (argmax_from best rest)))%Q)
    /\ (forall x, In x after ->
          (num (price x) <= num (price (argmax_from best rest)))%Q).
Proof.
  revert b1 a1 best. induction rest as [|r rest IH]; intros b1 a1 best Hb Ha.
  - exists b1, a1. rewrite app_nil_r. auto.
  - cbn [argmax_from].
    destruct (Qle_bool (num (price r)) (num (price best))) eqn:E.
    + apply Qle_bool_iff in E.
      destruct (IH b1 (a1 ++ [r])%list best Hb) as [before [after [Heq H]]].
      { intros x Hx. apply in_app_or in Hx as [Hx|[<-|[]]]; auto. }
      exists before, after. split; [|exact H].
      rewrite <- Heq, <- app_assoc. reflexivity.
    + assert (L : (num (price best) < num (price r))%Q).
      { apply Qnot_le_lt. intros C. apply Qle_bool_iff in C. congruence. }
      destruct (IH (b1 ++ best :: a1)%list [] r) as [before [after [Heq H]]].
      { intros x Hx. apply in_app_or in Hx as [Hx|[<-|Hx]].
        - eapply Qlt_trans; [apply Hb; exact Hx|exact L].
        - exact L.
        - eapply Qle_lt_trans; [apply Ha; exact Hx|exact L]. }
      { intros x []. }
      exists before, after. split; [|exact H].
      rewrite <- Heq, <- app_assoc. reflexivity.
Qed.

(** C8.  Whenever a run writes the summary, the filtered frame has
    rows, and the highest transaction of the summary is a row of maximal
    price over all rows, whatever their type, with every row before it in
    frame order of strictly smaller price; the record carries its name,
    [round(price / 100, 2)] and its type.  A run whose filtered frame has
    no row ends at line 61 with exit code 1 and writes nothing: the
    placeholder record of lines 94-98 is never written. *)
Theorem highest_transaction_first_max (input : option DataFrame) :
  (forall s, In (SummaryJson s) (written input) ->
     exists df before r after,
       input = Some df
       /\ cs2_df (rows df) = (before ++ r :: after)%list
       /\ highest_transaction (cs2_df (rows df)) = Some r
       /\ (forall x, In x before -> (num (price x) < num (price r))%Q)
       /\ (forall x, In x after -> (num (price x) <= num (price r))%Q)
       /\ s_highest_transaction s =
            mkHighest (market_name r) (Round2 (Div100 (Cell (num (price r)))))
                      (type_ r))
  /\ (forall df, input = Some df -> cs2_df (rows df) = [] ->
      written input = [] /\ exit_code (outcome input) = 1%Z).
Proof.
  split.
  - intros s H. apply written_inv in H as [df [-> [Ev [H|[bar [_ H]]]]]].
    + injection H as ->. exists df.
      destruct (cs2_df (rows df)) as [|r0 rest] eqn:E; [discriminate|].
      destruct (argmax_from_first_max rest [] [] r0)
        as [before [after [Heq [Hb Ha]]]]; try (intros x []).
      exists before, (argmax_from r0 rest), after.
      repeat split; auto.
    + destruct H as [H|[H|[H|H]]]; discriminate.
  - intros df -> E. unfold written, outcome. rewrite run_Some. cbn zeta.
    rewrite E. cbn [any_valid_type existsb].
    destruct (find_price_col _); [|split; reflexivity].
    destruct (missing_cols _); split; reflexivity.
Qed.

Lemma highest_transaction_first_max_witness :
  exists df before r after,
    Some sample_frame = Some df
    /\ cs2_df (rows df) = (before ++ r :: after)%list
    /\ highest_transaction (cs2_df (rows df)) = Some r
    /\ (forall x, In x before -> (num (price x) < num (price r))%Q)
    /\ (forall x, In x after -> (num (price x) <= num (price r))%Q)
    /\ s_highest_transaction (summary (cs2_df (rows sample_frame))) =
         mkHighest (market_name r) (Round2 (Div100 (Cell (num (price r)))))
                   (type_ r).
Proof.
  apply (proj1 (highest_transaction_first_max (Some sample_frame))).
  vm_compute. left. reflexivity.
Defined.

(** A file without data rows: the run stops at line 61, and no summary,
    hence no placeholder record, is written. *)
Lemma no_rows_no_placeholder :
  cs2_df (rows no_rows_frame) = []
  /\ written (Some no_rows_frame) = []
  /\ outcome (Some no_rows_frame) = Exit1 NoValidTransactions.
Proof. repeat split; vm_compute; reflexivity. Qed.

Example highest_transaction_tie :
  highest_transaction_record
    [mkRow (Some "Counter-Strike 2") (Timestamp 1900 1 5) (Some "sale")
       (Some "AK-47 | Redline") (PriceNum 300);
     mkRow (Some "Counter-Strike 2") (Timestamp 1900 1 6) (Some "purchase")
       (Some "Fracture Case") (PriceNum 1050);
     mkRow (Some "Counter-Strike 2") (Timestamp 1900 1 7) (Some "sale")
       (Some "Sticker Capsule") (PriceNum 1050)]
  = mkHighest (Some "Fracture Case") (Round2 (Div100 (Cell 1050))) (Some "purchase").
Proof. vm_compute. reflexivity. Qed.

(** ** Rounding *)







(** The bound of the exact reading is met: with a purchase of 0.4 cent
    and a sale of 0.8 cent the rounded totals are 0, 0.01 and 0. *)
Example exact_balance_tight :
  (Qabs (round2 ((4 # 10) / 100) + round2 ((8 # 10) / 100 - (4 # 10) / 100)
         - round2 ((8 # 10) / 100)) == 1 # 100)%Q.
Proof. vm_compute. reflexivity. Qed.

(** On binary64 the bound of the exact reading is missed on small
    amounts as well, by the error of one addition: with a purchase of
    9.625 cents and a sale of 29.375 cents the summary holds 0.1, 0.2 and
    0.29, and 0.1 + 0.2 - 0.29 exceeds the binary64 nearest to 0.01. *)
Example binary64_balance_small_amounts :
  exists gap,
    balance_gap false (summary (cs2_df (rows eighths_frame))) = Some gap
    /\ PrimFloat.ltb hundredth gap = true.
Proof. eexists. split; vm_compute; reflexivity. Qed.

(** ** Keys, groups and lookups *)

Section KeyFacts.
Variable K : Type.
Variable cmp : K -> K -> comparison.

Lemma insert_key_In (k x : K) (ks : list K) :
  In x (insert_key cmp k ks) -> x = k \/ In x ks.
Proof.
  induction ks as [|k' ks IH]; simpl.
  - intros [<-|[]]. now left.
  - destruct (cmp k k'); simpl; intuition.
Qed.

Lemma sorted_keys_In (x : K) (ks : list K) :
  In x (sorted_keys cmp ks) -> In x ks.
Proof.
  induction ks as [|k ks IH]; simpl; [auto|].
  intros H. apply insert_key_In in H as [->|H]; auto.
Qed.

Lemma insert_key_keeps (k x : K) (ks : list K) :
  In x ks -> In x (insert_key cmp k ks).
Proof.
  induction ks as [|k' ks IH]; simpl; [intros []|].
  destruct (cmp k k'); simpl; intuition.
Qed.

Hypothesis cmp_eq : forall a b, cmp a b = Eq -> a = b.
Hypothesis cmp_refl : forall a, cmp a a = Eq.

Lemma same_key_true (a b : K) : same_key cmp a b = true <-> a = b.
Proof.
  unfold same_key. split.
  - destruct (cmp a b) eqn:E; try discriminate. intros _. now apply cmp_eq.
  - intros ->. now rewrite cmp_refl.
Qed.

Lemma insert_key_adds (k : K) (ks : list K) : In k (insert_key cmp k ks).
Proof.
  induction ks as [|k' ks IH]; simpl; [now left|].
  destruct (cmp k k') eqn:E; simpl; auto.
  apply cmp_eq in E. now left.
Qed.

Lemma sorted_keys_complete (x : K) (ks : list K) :
  In x ks -> In x (sorted_keys cmp ks).
Proof.
  induction ks as [|k ks IH]; simpl; [auto|].
  intros [->|H]; [apply insert_key_adds | apply insert_key_keeps; auto].
Qed.

Lemma lookup_Some_In {V : Type} (k : K) (v : V) (t : list (K * V)) :
  lookup cmp k t = Some v -> In (k, v) t.
Proof.
  unfold lookup. destruct (find _ t) as [[k' v']|] eqn:E; [|discriminate].
  simpl. intros [= <-]. apply find_some in E as [Hin Hk].
  apply same_key_true in Hk. simpl in Hk. now subst.
Qed.

Lemma lookup_present {V : Type} (k : K) (t : list (K * V)) :
  In k (map fst t) -> exists v, lookup cmp k t = Some v.
Proof.
  intros H. unfold lookup. destruct (find _ t) as [e|] eqn:E.
  - exists (snd e). reflexivity.
  - exfalso. apply in_map_iff in H as [e [He Hin]].
    pose proof (find_none _ _ E e Hin) as N. simpl in N.
    rewrite He in N. assert (T : same_key cmp k k = true) by now apply same_key_true.
    congruence.
Qed.

(** With a strict order behind [cmp], the sorted keys are strictly
    ascending, so none is repeated. *)
Hypothesis cmp_antisym : forall a b, cmp a b = CompOpp (cmp b a).
Hypothesis cmp_trans : forall a b c, cmp a b = Lt -> cmp b c = Lt -> cmp a c = Lt.

Lemma insert_key_ascending (k : K) (ks : list K) :
  ascending cmp ks -> ascending cmp (insert_key cmp k ks).
Proof.
  unfold ascending. induction ks as [|k' ks IH]; intros H; simpl.
  - constructor; constructor.
  - inversion H as [|? ? Hs Hall]; subst.
    destruct (cmp k k') eqn:E.
    + exact H.
    + constructor; [exact H|]. constructor; [exact E|].
      eapply Forall_impl; [|exact Hall]. intros a Ha. eapply cmp_trans; eauto.
    + constructor; [auto|].
      apply Forall_forall. intros x Hx.
      apply insert_key_In in Hx as [->|Hx].
      * rewrite cmp_antisym, E. reflexivity.
      * rewrite Forall_forall in Hall. auto.
Qed.

Lemma sorted_keys_ascending (ks : list K) : ascending cmp (sorted_keys cmp ks).
Proof.
  induction ks as [|k ks IH]; simpl.
  - constructor.
  - now apply insert_key_ascending.
Qed.

Lemma ascending_NoDup (ks : list K) : ascending cmp ks -> NoDup ks.
Proof.
  unfold ascending. induction 1 as [|k ks Hs IH Hall]; constructor; auto.
  intros Hin. rewrite Forall_forall in Hall.
  specialize (Hall k Hin). rewrite cmp_refl in Hall. discriminate.
Qed.

Lemma sorted_keys_NoDup (ks : list K) : NoDup (sorted_keys cmp ks).
Proof. apply ascending_NoDup, sorted_keys_ascending. Qed.
End KeyFacts.

(** *** The two orders used by the script *)

Lemma string_compare_refl (s : string) : String.compare s s = Eq.
Proof.
  pose proof (String.compare_antisym s s) as H.
  destruct (String.compare s s); simpl in H; congruence.
Qed.

Lemma string_compare_OT (a b : string) :
  String.compare a b = String_as_OT.compare a b.
Proof.
  revert b. induction a as [|x a IH]; destruct b as [|y b]; reflexivity.
Qed.

Lemma string_compare_trans (a b c : string) :
  String.compare a b = Lt -> String.compare b c = Lt -> String.compare a c = Lt.
Proof.
  rewrite !string_compare_OT. intros H1 H2.
  exact (StrictOrder_Transitive (R := String_as_OT.lt) a b c H1 H2).
Qed.

Lemma pair_compare_eq (a b : string * string) : pair_compare a b = Eq -> a = b.
Proof.
  destruct a as [a1 a2], b as [b1 b2]. unfold pair_compare. simpl.
  destruct (String.compare a1 b1) eqn:E; try discriminate.
  intros H. apply String.compare_eq_iff in E, H. congruence.
Qed.

Lemma pair_compare_refl (a : string * string) : pair_compare a a = Eq.
Proof.
  unfold pair_compare. now rewrite !string_compare_refl.
Qed.

Lemma pair_compare_antisym (a b : string * string) :
  pair_compare a b = CompOpp (pair_compare b a).
Proof.
  unfold pair_compare.
  rewrite (String.compare_antisym (fst a) (fst b)),
          (String.compare_antisym (snd a) (snd b)).
  destruct (String.compare (fst b) (fst a)); reflexivity.
Qed.

Lemma pair_compare_trans (a b c : string * string) :
  pair_compare a b = Lt -> pair_compare b c = Lt -> pair_compare a c = Lt.
Proof.
  destruct a as [a1 a2], b as [b1 b2], c as [c1 c2]. unfold pair_compare. simpl.
  destruct (String.compare a1 b1) eqn:E1; try discriminate;
    destruct (String.compare b1 c1) eqn:E2; try discriminate; intros H1 H2.
  - apply String.compare_eq_iff in E1, E2. subst.
    rewrite string_compare_refl. eapply string_compare_trans; eauto.
  - apply String.compare_eq_iff in E1. subst. now rewrite E2.
  - apply String.compare_eq_iff in E2. subst. now rewrite E1.
  - now rewrite (string_compare_trans _ _ _ E1 E2).
Qed.

Lemma in_somes {A : Type} (x : A) (l : list (option A)) :
  In x (somes l) <-> In (Some x) l.
Proof.
  induction l as [|[a|] l IH]; simpl.
  - tauto.
  - rewrite IH. split; intros [H|H]; auto; left; congruence.
  - rewrite IH. split; [auto|]. intros [H|H]; [discriminate|auto].
Qed.

Lemma cell_is_true (s : string) (c : option string) :
  cell_is s c = true <-> c = Some s.
Proof.
  unfold cell_is. destruct c as [v|].
  - rewrite String.eqb_eq. split; congruence.
  - split; discriminate.
Qed.

Lemma has_type_true (t : string) (df : list row) :
  has_type t df = true <-> exists r, In r df /\ type_ r = Some t.
Proof.
  unfold has_type. rewrite existsb_exists.
  split; intros [r [H1 H2]]; exists r; split; auto; now apply cell_is_true.
Qed.

Lemma flat_map_singleton {A B C : Type} (f : B -> list C) (g : A -> B)
      (h : A -> C) (l : list A) :
  (forall a, In a l -> f (g a) = [h a]) -> flat_map f (map g l) = map h l.
Proof.
  induction l as [|a l IH]; intros H; simpl; [reflexivity|].
  rewrite (H a (or_introl eq_refl)), IH; [reflexivity|].
  intros b Hb. apply H. now right.
Qed.

(** ** The bar data *)

Lemma same_pair_key (a b : string * string) :
  same_key pair_compare a b = (fst a =? fst b) && (snd a =? snd b).
Proof.
  destruct (same_key pair_compare a b) eqn:E.
  - apply (same_key_true _ _ pair_compare_eq pair_compare_refl) in E. subst.
    now rewrite !String.eqb_refl.
  - destruct (fst a =? fst b) eqn:E1, (snd a =? snd b) eqn:E2; try reflexivity.
    apply String.eqb_eq in E1, E2.
    assert (H : same_key pair_compare a b = true).
    { apply (same_key_true _ _ pair_compare_eq pair_compare_refl).
      destruct a, b; simpl in *; congruence. }
    congruence.
Qed.

Lemma rows_of_key_category (c t : string) (df : list row) :
  rows_of_key pair_compare category_type_key (c, t) df = category_rows c t df.
Proof.
  unfold rows_of_key, category_rows. apply filter_ext. intros r.
  unfold category_type_key, cell_is. destruct (type_ r) as [v|]; simpl.
  - apply same_pair_key.
  - now rewrite andb_false_r.
Qed.

Lemma category_type_sums_eq (df : list row) :
  category_type_sums df =
  map (fun k => (k, GroupSum (price_values (category_rows (fst k) (snd k) df))))
      (sorted_keys pair_compare (somes (map category_type_key df))).
Proof.
  unfold category_type_sums, groupby. rewrite map_map. apply map_ext.
  intros [c t]. simpl. now rewrite rows_of_key_category.
Qed.

Lemma in_type_keys (c t : string) (df : list row) :
  In (c, t) (sorted_keys pair_compare (somes (map category_type_key df))) <->
  exists r, In r df /\ type_ r = Some t /\ categorize_item (market_name r) = c.
Proof.
  split.
  - intros H. apply sorted_keys_In, in_somes, in_map_iff in H as [r [E Hr]].
    exists r. unfold category_type_key in E.
    destruct (type_ r) as [v|]; simpl in E; [|discriminate].
    inversion E; subst. auto.
  - intros [r [Hr [Ht Hc]]].
    apply (sorted_keys_complete _ _ pair_compare_eq pair_compare_refl), in_somes, in_map_iff.
    exists r. split; [|exact Hr]. unfold category_type_key. rewrite Ht. simpl.
    now rewrite Hc.
Qed.

Lemma in_sums_keys (k : string * string) (df : list row) :
  In k (map fst (category_type_sums df)) <->
  In k (sorted_keys pair_compare (somes (map category_type_key df))).
Proof.
  rewrite category_type_sums_eq, map_map. simpl. now rewrite map_id.
Qed.

Lemma in_category_rows (c t : string) (df : list row) (r : row) :
  In r (category_rows c t df) <->
  In r df /\ categorize_item (market_name r) = c /\ type_ r = Some t.
Proof.
  unfold category_rows. rewrite filter_In, andb_true_iff, String.eqb_eq, cell_is_true.
  tauto.
Qed.

(** A cell of the unstacked frame: the sum of the group of its pair, or
    the fill value when the pair has no row. *)
Lemma sum_cell (c t : string) (df : list row) :
  Div100 (match lookup pair_compare (c, t) (category_type_sums df) with
          | Some v => v
          | None => Cell 0
          end) = category_amount df c t.
Proof.
  unfold category_amount. f_equal.
  destruct (lookup pair_compare (c, t) (category_type_sums df)) as [v|] eqn:E.
  - apply (lookup_Some_In _ _ pair_compare_eq pair_compare_refl) in E.
    assert (Hk : In (c, t) (map fst (category_type_sums df))).
    { apply in_map_iff. exists ((c, t), v). auto. }
    apply in_sums_keys, in_type_keys in Hk as [r [Hr [Ht Hc]]].
    assert (Hin : In r (category_rows c t df)) by (apply in_category_rows; auto).
    rewrite category_type_sums_eq in E.
    apply in_map_iff in E as [k [Hk _]]. inversion Hk; subst.
    destruct (category_rows _ _ df); [destruct Hin|reflexivity].
  - destruct (category_rows c t df) as [|r l] eqn:F; [reflexivity|exfalso].
    assert (Hr : In r (category_rows c t df)) by (rewrite F; now left).
    apply in_category_rows in Hr as [Hr [Hc Ht]].
    assert (Hk : In (c, t) (map fst (category_type_sums df))).
    { apply in_sums_keys, in_type_keys. exists r. auto. }
    apply (lookup_present _ _ pair_compare_eq pair_compare_refl) in Hk as [v Hv]. congruence.
Qed.

Lemma unstack_eq (df : list row) :
  unstack_div100 (category_type_sums df) =
  mkWide (type_columns df)
    (map (fun c => (c, map (fun t => (t, category_amount df c t)) (type_columns df)))
         (category_index df)).
Proof.
  unfold unstack_div100, type_columns, category_index.
  f_equal. apply map_ext. intros c. f_equal. apply map_ext. intros t.
  now rewrite sum_cell.
Qed.

Lemma in_type_columns (t : string) (df : list row) :
  In t (type_columns df) <-> has_type t df = true.
Proof.
  unfold type_columns. rewrite has_type_true. split.
  - intros H. apply sorted_keys_In, in_map_iff in H as [[[c t'] v] [E H]].
    simpl in E. subst t'.
    assert (Hk : In (c, t) (map fst (category_type_sums df))).
    { apply in_map_iff. exists ((c, t), v). auto. }
    apply in_sums_keys, in_type_keys in Hk as [r [Hr [Ht _]]]. eauto.
  - intros [r [Hr Ht]].
    apply (sorted_keys_complete _ _ String.compare_eq_iff string_compare_refl).
    assert (Hk : In (categorize_item (market_name r), t)
                    (map fst (category_type_sums df))).
    { apply in_sums_keys, in_type_keys. exists r. auto. }
    apply in_map_iff in Hk as [e [He Hin]].
    apply in_map_iff. exists e. split; [now rewrite He | exact Hin].
Qed.

Lemma in_category_index (c : string) (df : list row) :
  In c (category_index df) <-> occurring_category c df.
Proof.
  unfold category_index, occurring_category. split.
  - intros H. apply sorted_keys_In, in_map_iff in H as [[[c' t] v] [E H]].
    simpl in E. subst c'.
    assert (Hk : In (c, t) (map fst (category_type_sums df))).
    { apply in_map_iff. exists ((c, t), v). auto. }
    apply in_sums_keys, in_type_keys in Hk as [r [Hr [Ht Hc]]].
    exists r. repeat split; auto. congruence.
  - intros [r [Hr [Ht Hc]]]. destruct (type_ r) as [t|] eqn:Et; [|congruence].
    apply (sorted_keys_complete _ _ String.compare_eq_iff string_compare_refl).
    assert (Hk : In (c, t) (map fst (category_type_sums df))).
    { apply in_sums_keys, in_type_keys. exists r. auto. }
    apply in_map_iff in Hk as [e [He Hin]].
    apply in_map_iff. exists e. split; [now rewrite He | exact Hin].
Qed.

Lemma lookup_column {V : Type} (f : string -> V) (v : string) (cols : list string) :
  In v cols -> lookup String.compare v (map (fun t => (t, f t)) cols) = Some (f v).
Proof.
  intros H.
  destruct (lookup_present _ String.compare String.compare_eq_iff string_compare_refl v
              (map (fun t => (t, f t)) cols)) as [a Ha].
  { rewrite map_map. simpl. now rewrite map_id. }
  rewrite Ha. f_equal.
  apply (lookup_Some_In _ _ String.compare_eq_iff string_compare_refl) in Ha.
  apply in_map_iff in Ha as [t [E _]]. now inversion E.
Qed.

(** [melt] with the value columns of line 124. *)
Lemma melt_purchase_sale (w : wide_frame) :
  melt ["purchase"; "sale"] w =
  if mem "purchase" (wide_columns w) && mem "sale" (wide_columns w)
  then Ok (flat_map (fun v =>
             flat_map (fun cr =>
               match lookup String.compare v (snd cr) with
               | Some a => [((fst cr, v), a)]
               | None => []
               end) (wide_rows w)) ["purchase"; "sale"])
  else Raise "KeyError".
Proof.
  unfold melt. cbn [filter]. unfold mem. cbn [existsb].
  change ("purchase" =? "Category") with false.
  change ("sale" =? "Category") with false. cbn [orb].
  destruct (existsb (String.eqb "purchase") (wide_columns w));
    destruct (existsb (String.eqb "sale") (wide_columns w)); reflexivity.
Qed.

Lemma mem_type_columns (t : string) (df : list row) :
  mem t (type_columns df) = has_type t df.
Proof.
  destruct (mem t (type_columns df)) eqn:E.
  - apply mem_In, in_type_columns in E. now rewrite E.
  - destruct (has_type t df) eqn:F; [|reflexivity].
    apply in_type_columns, mem_In in F. congruence.
Qed.

(** The whole of lines 123-126: a [KeyError] unless both types occur,
    and otherwise the records made from the long frame. *)
Lemma bar_data_unfold (df : list row) :
  bar_data df =
  if has_type "purchase" df && has_type "sale" df
  then Ok (pivot_records (melted df))
  else Raise "KeyError".
Proof.
  unfold bar_data. rewrite unstack_eq, melt_purchase_sale.
  cbn [wide_columns wide_rows]. rewrite !mem_type_columns.
  destruct (has_type "purchase" df) eqn:Hp; [|reflexivity].
  destruct (has_type "sale" df) eqn:Hs; [|reflexivity].
  cbn [andb]. do 2 f_equal. unfold melted. cbn [flat_map].
  apply in_type_columns in Hp, Hs.
  f_equal; [|f_equal]; apply flat_map_singleton; intros c _; cbn [fst snd];
    now rewrite (lookup_column (category_amount df c)).
Qed.

Lemma melted_entry (df : list row) (e : (string * string) * amount) :
  In e (melted df) ->
  exists c v, e = ((c, v), category_amount df c v)
              /\ In c (category_index df) /\ (v = "purchase" \/ v = "sale").
Proof.
  unfold melted. cbn [flat_map]. rewrite app_nil_r. intros H.
  apply in_app_or in H as [H|H]; apply in_map_iff in H as [c [<- Hc]];
    eexists; eexists; eauto.
Qed.

Lemma melted_has (df : list row) (c v : string) :
  In c (category_index df) -> v = "purchase" \/ v = "sale" ->
  In ((c, v), category_amount df c v) (melted df).
Proof.
  unfold melted. cbn [flat_map]. rewrite app_nil_r. intros Hc [H | H]; subst v;
    apply in_or_app; [left|right]; apply in_map_iff; eauto.
Qed.

Lemma melted_cell (df : list row) (c v : string) :
  In c (category_index df) -> v = "purchase" \/ v = "sale" ->
  match lookup pair_compare (c, v) (melted df) with
  | Some a => a
  | None => Cell 0
  end = category_amount df c v.
Proof.
  intros Hc Hv.
  destruct (lookup_present _ pair_compare pair_compare_eq pair_compare_refl
              (c, v) (melted df)) as [a Ha].
  { apply in_map_iff. eexists. split; [|apply melted_has; eauto]. reflexivity. }
  rewrite Ha.
  apply (lookup_Some_In _ _ pair_compare_eq pair_compare_refl) in Ha.
  apply melted_entry in Ha as [c' [v' [E _]]]. now inversion E.
Qed.

Lemma in_melted_index (df : list row) (c : string) :
  In c (sorted_keys String.compare (map (fun e => fst (fst e)) (melted df))) <->
  In c (category_index df).
Proof.
  split.
  - intros H. apply sorted_keys_In, in_map_iff in H as [e [<- He]].
    apply melted_entry in He as [c' [v [-> [Hc _]]]]. exact Hc.
  - intros H.
    apply (sorted_keys_complete _ _ String.compare_eq_iff string_compare_refl).
    apply in_map_iff. eexists. split; [|apply (melted_has df c "purchase"); auto].
    reflexivity.
Qed.

(** What the bar data holds when it is produced: both types occur in the
    frame, there is exactly one record per occurring category, and the two
    amounts of a record are the summed purchase and sale prices of its
    category over 100, which is 0 for a pair without rows. *)
Lemma bar_data_spec (df : list row) (recs : list bar_record) :
  bar_data df = Ok recs ->
  has_type "purchase" df = true /\ has_type "sale" df = true
  /\ NoDup (map Category recs)
  /\ (forall c, In c (map Category recs) <-> occurring_category c df)
  /\ (forall rec, In rec recs ->
        spent rec = category_amount df (Category rec) "purchase"
        /\ earned rec = category_amount df (Category rec) "sale").
Proof.
  rewrite bar_data_unfold.
  destruct (has_type "purchase" df); [|discriminate].
  destruct (has_type "sale" df); [|discriminate].
  cbn [andb]. intros [= <-]. unfold pivot_records.
  split; [reflexivity|]. split; [reflexivity|].
  rewrite map_map. cbn [Category]. rewrite map_id.
  split; [|split].
  - apply (sorted_keys_NoDup _ _ string_compare_refl
             String.compare_antisym string_compare_trans).
  - intros c. now rewrite in_melted_index, in_category_index.
  - intros rec H. apply in_map_iff in H as [c [<- Hc]]. cbn [Category spent earned].
    apply in_melted_index in Hc.
    split; apply melted_cell; auto.
Qed.

Lemma bar_data_raises (df : list row) :
  has_type "purchase" df = false \/ has_type "sale" df = false ->
  bar_data df = Raise "KeyError".
Proof.
  rewrite bar_data_unfold. intros [H | H]; rewrite H; [reflexivity|].
  now rewrite andb_false_r.
Qed.

Lemma category_amount_no_rows (df : list row) (c t : string) :
  category_rows c t df = [] -> category_amount df c t = Div100 (Cell 0).
Proof. unfold category_amount. intros ->. reflexivity. Qed.

(** C7, what the code does when a type is absent.  When the checks pass
    but the frame has no purchase row, or no sale row, line 124 raises
    [KeyError]: the run has written the summary and nothing else, and no
    bar data with a zero amount is produced. *)
Theorem bar_data_missing_type_raises (df : DataFrame) (c : string) :
  find_price_col (map clean_col (columns df)) = Some c ->
  missing_cols (map clean_col (columns df)) = [] ->
  any_valid_type (cs2_df (rows df)) = true ->
  has_type "purchase" (cs2_df (rows df)) = false
  \/ has_type "sale" (cs2_df (rows df)) = false ->
  bar_data (cs2_df (rows df)) = Raise "KeyError"
  /\ written (Some df) = [SummaryJson (summary (cs2_df (rows df)))]
  /\ outcome (Some df) = Uncaught "KeyError".
Proof.
  intros Hp Hm Hv Ht. apply bar_data_raises in Ht.
  unfold written, outcome. rewrite run_Some. cbn zeta.
  rewrite Hp, Hm, Hv, Ht. repeat split.
Qed.

Lemma bar_data_missing_type_raises_witness :
  bar_data (cs2_df (rows purchases_only_frame)) = Raise "KeyError"
  /\ written (Some purchases_only_frame)
     = [SummaryJson (summary (cs2_df (rows purchases_only_frame)))]
  /\ outcome (Some purchases_only_frame) = Uncaught "KeyError".
Proof.
  apply (bar_data_missing_type_raises purchases_only_frame "Price in Cents").
  - reflexivity.
  - reflexivity.
  - reflexivity.
  - right. reflexivity.
Defined.

(** ** Categories in the output *)

Lemma categorize_item_five (n : string) :
  In (categorize_item (Some n)) five_categories.
Proof.
  unfold categorize_item, five_categories.
  destruct (contains "Capsule" n); [simpl; auto|].
  destruct (contains "Case" n); [simpl; auto|].
  destruct (contains "Charm" n); [simpl; auto|].
  destruct (contains "Sticker" n); simpl; auto 6.
Qed.

Lemma five_categories_not_Unknown (c : string) :
  In c five_categories -> c <> "Unknown".
Proof.
  unfold five_categories. simpl. intros H E. subst c.
  repeat (destruct H as [H|H]; [discriminate H|]). exact H.
Qed.

Lemma cs2_df_market_name (df : list row) (r : row) :
  In r (cs2_df df) -> exists n, market_name r = Some n.
Proof.
  intros H. apply in_cs2_df in H as [r0 [_ [Hk ->]]].
  now destruct (retained_cells r0 Hk) as [_ [Hn _]].
Qed.

(** C10.  When a run writes the bar data, no row of [cs2_df] has a
    missing name, so the Unknown branch of the classifier is never
    taken, and every Category of the bar data is one of the five named
    categories. *)
Theorem bar_data_categories_named (input : option DataFrame) (b : list bar_record) :
  In (BarDataJson b) (written input) ->
  exists df,
    input = Some df
    /\ (forall r, In r (cs2_df (rows df)) ->
          market_name r <> None
          /\ categorize_item (market_name r) <> "Unknown")
    /\ (forall rec, In rec b ->
          In (Category rec) five_categories /\ Category rec <> "Unknown").
Proof.
  intros H. apply written_inv in H as [df [-> [_ H]]]. exists df.
  split; [reflexivity|].
  assert (R : forall r, In r (cs2_df (rows df)) ->
                In (categorize_item (market_name r)) five_categories
                /\ market_name r <> None).
  { intros r Hr. destruct (cs2_df_market_name _ _ Hr) as [n Hn]. rewrite Hn.
    split; [apply categorize_item_five | discriminate]. }
  split.
  - intros r Hr. destruct (R r Hr) as [H5 Hn].
    split; [exact Hn | now apply five_categories_not_Unknown].
  - destruct H as [H|[bar [Hb H]]]; [discriminate H|].
    destruct H as [H|[H|[H|H]]]; try discriminate H.
    injection H as ->. intros rec Hrec.
    destruct (bar_data_spec _ _ Hb) as [_ [_ [_ [Hocc _]]]].
    assert (Hc : In (Category rec) (map Category bar)) by now apply in_map.
    apply Hocc in Hc as [r [Hr [_ Hcat]]].
    destruct (R r Hr) as [H5 _]. rewrite Hcat in H5.
    split; [exact H5 | now apply five_categories_not_Unknown].
Qed.

Lemma bar_data_categories_named_witness :
  exists df,
    Some sample_frame = Some df
    /\ (forall r, In r (cs2_df (rows df)) ->
          market_name r <> None
          /\ categorize_item (market_name r) <> "Unknown")
    /\ (forall rec, In rec sample_bar ->
          In (Category rec) five_categories /\ Category rec <> "Unknown").
Proof.
  apply (bar_data_categories_named (Some sample_frame) sample_bar).
  vm_compute. right. left. reflexivity.
Defined.

Example sample_bar_categories :
  map Category sample_bar = ["Capsules"; "Cases"; "Weapons"].
Proof. vm_compute. reflexivity. Qed.

(** ** The monetary values of the outputs *)

Lemma same_string_key (a b : string) : same_key String.compare a b = (a =? b).
Proof.
  destruct (same_key String.compare a b) eqn:E.
  - apply (same_key_true _ _ String.compare_eq_iff string_compare_refl) in E.
    subst. now rewrite String.eqb_refl.
  - destruct (a =? b) eqn:F; [|reflexivity]. apply String.eqb_eq in F. subst.
    unfold same_key in E. now rewrite string_compare_refl in E.
Qed.

Lemma rows_of_key_item (n : string) (df : list row) :
  rows_of_key String.compare market_name n df = item_rows n df.
Proof.
  unfold rows_of_key, item_rows. apply filter_ext. intros r.
  unfold cell_is. destruct (market_name r); [apply same_string_key|reflexivity].
Qed.

Lemma rows_of_key_line (d n : string) (df : list row) :
  rows_of_key pair_compare date_name_key (d, n) df = line_rows d n df.
Proof.
  unfold rows_of_key, line_rows. apply filter_ext. intros r.
  unfold date_name_key, cell_is.
  destruct (strftime (acted_on r)) as [d'|]; [|reflexivity].
  destruct (market_name r) as [n'|]; [apply same_pair_key|].
  now rewrite andb_false_r.
Qed.

Lemma item_details_total (df : list row) (d : item_detail) :
  In d (item_details df) ->
  total_eur d = Div100 (GroupSum (price_values (item_rows (item_market_name d) df))).
Proof.
  unfold item_details, groupby. rewrite map_map. intros H.
  apply in_map_iff in H as [k [<- _]]. cbn [total_eur item_market_name fst snd].
  now rewrite rows_of_key_item.
Qed.

Lemma line_data_value (df : list row) (rec : line_record) :
  In rec (line_data df) ->
  value rec =
  Div100 (GroupSum (price_values (line_rows (Date rec) (line_market_name rec) df))).
Proof.
  unfold line_data, groupby. rewrite map_map. intros H.
  apply in_map_iff in H as [[d n] [<- _]]. cbn [value Date line_market_name fst snd].
  now rewrite rows_of_key_line.
Qed.




(** The same value in a history of whole cents is one that [round(_, 2)]
    leaves alone: 1050 cents are written as 10.5. *)
Example whole_cents_value_rounded :
  written_rounded true (Div100 (GroupSum [1050%Q])) = Some true.
Proof. vm_compute. reflexivity. Qed.

(** The rounding of line 88 is that of the binary64 quotient: a purchase
    of 57.5 cents gives the total 0.57, where rounding the exact quotient
    to even gives 0.58. *)
Example total_spent_binary64_rounding :
  machine false (Round2 (Div100 (SeriesSum [(115 # 2)%Q])))
  = Some (MFloat (PrimFloat.div 57 100))
  /\ (exact (Round2 (Div100 (SeriesSum [(115 # 2)%Q]))) == 58 # 100)%Q.
Proof. split; vm_compute; reflexivity. Qed.

(** An int64 sum wraps: two purchases of 2^63 - 1 cents add up to -2
    cents, and the total written is -0.02. *)
Example total_spent_int64_wraps :
  machine true (Round2 (Div100 (SeriesSum [inject_Z (2 ^ 63 - 1); inject_Z (2 ^ 63 - 1)])))
  = Some (MFloat (PrimFloat.div (-2) 100)).
Proof. vm_compute. reflexivity. Qed.


(** * Further properties of the script *)

(** ** Lines 18-28: the header checks *)

Lemma find_first {A : Type} (f : A -> bool) (l : list A) (c : A) :
  find f l = Some c ->
  exists before after,
    l = (before ++ c :: after)%list /\ f c = true
    /\ forall x, In x before -> f x = false.
Proof.
  induction l as [|a l IH]; simpl; [discriminate|].
  destruct (f a) eqn:E.
  - intros [= <-]. exists [], l. repeat split; auto. intros x [].
  - intros H. destruct (IH H) as [before [after [-> [Hc Hb]]]].
    exists (a :: before), after. repeat split; auto.
    intros x [<-|Hx]; auto.
Qed.

Lemma price_header_test (col : string) :
  contains "Price" col && contains "Cents" col = true <-> price_header col.
Proof.
  unfold price_header. now rewrite andb_true_iff, !contains_occurs.
Qed.

(** X1.  The price column is the first cleaned header, in file order,
    that contains both Price and Cents; the search fails exactly when no
    header contains both. *)
Theorem find_price_col_first (cols : list string) :
  (forall c, find_price_col cols = Some c ->
     exists before after,
       cols = (before ++ c :: after)%list
       /\ price_header c
       /\ forall x, In x before -> ~ price_header x)
  /\ (find_price_col cols = None <->
      forall x, In x cols -> ~ price_header x).
Proof.
  unfold find_price_col. split.
  - intros c H. apply find_first in H as [before [after [-> [Hc Hb]]]].
    exists before, after. split; [reflexivity|]. split.
    + now apply price_header_test.
    + intros x Hx Hp. apply price_header_test in Hp.
      rewrite (Hb x Hx) in Hp. discriminate.
  - split.
    + intros H x Hx Hp. apply price_header_test in Hp.
      pose proof (find_none _ _ H x Hx) as N. simpl in N. congruence.
    + intros H. destruct (find _ cols) as [c|] eqn:E; [|reflexivity].
      apply find_some in E as [Hin Hc]. apply price_header_test in Hc.
      elim (H c Hin Hc).
Qed.

Lemma find_price_col_first_witness :
  exists before after,
    ["Price"; "Price (Cents)"; "Display Price in Cents"]
    = (before ++ "Price (Cents)" :: after)%list
    /\ price_header "Price (Cents)"
    /\ forall x, In x before -> ~ price_header x.
Proof.
  apply (proj1 (find_price_col_first
                  ["Price"; "Price (Cents)"; "Display Price in Cents"])).
  reflexivity.
Defined.

(** X2.  The list of missing columns holds exactly the required names
    that are not among the cleaned headers, and it is empty exactly when
    all four are present. *)
Theorem missing_cols_spec (cols : list string) :
  (forall c, In c (missing_cols cols) <-> In c required_cols /\ ~ In c cols)
  /\ (missing_cols cols = [] <-> forall c, In c required_cols -> In c cols).
Proof.
  assert (M : forall c, In c (missing_cols cols) <-> In c required_cols /\ ~ In c cols).
  { intros c. unfold missing_cols. rewrite filter_In, negb_true_iff, mem_not_In.
    reflexivity. }
  split; [exact M|]. split.
  - intros E c Hc. destruct (mem c cols) eqn:F; [now apply mem_In|].
    apply mem_not_In in F.
    assert (H : In c (missing_cols cols)) by (apply M; auto).
    rewrite E in H. destruct H.
  - intros H. destruct (missing_cols cols) as [|c l] eqn:E; [reflexivity|].
    assert (Hc : In c (c :: l)) by now left.
    apply M in Hc as [Hr Hn]. elim Hn. auto.
Qed.

Lemma missing_cols_spec_witness :
  missing_cols (map clean_col sample_header) = [].
Proof.
  apply (proj2 (missing_cols_spec (map clean_col sample_header))).
  intros c Hc. vm_compute in Hc. vm_compute.
  repeat (destruct Hc as [<-|Hc]; [tauto|]). destruct Hc.
Defined.

(** ** The run as a whole *)

(** X3.  Whatever the input, a run that ends in one of the four
    [exit(1)] calls has written no file. *)
Theorem fatal_exit_writes_nothing (input : option DataFrame) (e : fatal) :
  outcome input = Exit1 e ->
  written input = [] /\ exit_code (outcome input) = 1%Z.
Proof.
  unfold outcome, written. destruct input as [df|]; [|now rewrite run_None].
  rewrite run_Some. cbn zeta.
  destruct (find_price_col _); [|auto].
  destruct (missing_cols _); [|auto].
  destruct (any_valid_type _); [|auto].
  destruct (bar_data _); simpl; intros H; discriminate H.
Qed.

Lemma fatal_exit_writes_nothing_witness :
  written (Some (mkDataFrame ["Game Name"; "Type"] [row_sold_redline])) = []
  /\ exit_code (outcome (Some (mkDataFrame ["Game Name"; "Type"] [row_sold_redline])))
     = 1%Z.
Proof.
  apply (fatal_exit_writes_nothing
           (Some (mkDataFrame ["Game Name"; "Type"] [row_sold_redline]))
           MissingPriceColumn).
  reflexivity.
Defined.

(** X4.  A run that reaches the end of the script has written the five
    files, in the order summary, bar data, line data, pie data, page; its
    frame holds at least one purchase and at least one sale. *)
Theorem completed_run_writes_five (input : option DataFrame) :
  outcome input = Completed ->
  exists df bar,
    input = Some df
    /\ bar_data (cs2_df (rows df)) = Ok bar
    /\ written input =
         [SummaryJson (summary (cs2_df (rows df))); BarDataJson bar;
          LineDataJson (line_data (cs2_df (rows df)));
          PieDataJson (pie_data (cs2_df (rows df))); IndexHtml]
    /\ has_type "purchase" (cs2_df (rows df)) = true
    /\ has_type "sale" (cs2_df (rows df)) = true.
Proof.
  unfold outcome, written. destruct input as [df|]; [|rewrite run_None; discriminate].
  rewrite run_Some. cbn zeta.
  destruct (find_price_col _); [|discriminate].
  destruct (missing_cols _); [|discriminate].
  destruct (any_valid_type _); [|discriminate].
  destruct (bar_data _) as [bar|exn] eqn:Eb; [|discriminate].
  intros _. exists df, bar.
  destruct (bar_data_spec _ _ Eb) as [Hp [Hs _]].
  repeat split; auto.
Qed.

Lemma completed_run_writes_five_witness :
  exists df bar,
    Some sample_frame = Some df
    /\ bar_data (cs2_df (rows df)) = Ok bar
    /\ written (Some sample_frame) =
         [SummaryJson (summary (cs2_df (rows df))); BarDataJson bar;
          LineDataJson (line_data (cs2_df (rows df)));
          PieDataJson (pie_data (cs2_df (rows df))); IndexHtml]
    /\ has_type "purchase" (cs2_df (rows df)) = true
    /\ has_type "sale" (cs2_df (rows df)) = true.
Proof.
  apply (completed_run_writes_five (Some sample_frame)).
  vm_compute. reflexivity.
Defined.

(** ** Text: what the strips remove and what the normaliser fixes *)

Lemma string_app_assoc (a b c : string) : (a ++ b) ++ c = a ++ b ++ c.
Proof. induction a as [|x a IH]; simpl; [reflexivity | now rewrite IH]. Qed.

Lemma string_app_nil_r (a : string) : a ++ EmptyString = a.
Proof. induction a as [|x a IH]; simpl; [reflexivity | now rewrite IH]. Qed.

Lemma string_forallb_app (p : ascii -> bool) (a b : string) :
  string_forallb p (a ++ b) = string_forallb p a && string_forallb p b.
Proof.
  induction a as [|x a IH]; simpl; [reflexivity|].
  now rewrite IH, andb_assoc.
Qed.

Lemma string_forallb_impl (p q : ascii -> bool) (a : string) :
  (forall c, p c = true -> q c = true) ->
  string_forallb p a = true -> string_forallb q a = true.
Proof.
  intros Hpq. induction a as [|x a IH]; simpl; [auto|].
  intros H. apply andb_true_iff in H as [Hx Ha].
  now rewrite (Hpq x Hx), (IH Ha).
Qed.

Lemma lstrip_split (p : ascii -> bool) (s : string) :
  exists a, s = a ++ lstrip p s /\ string_forallb p a = true.
Proof.
  induction s as [|c s IH]; simpl.
  - exists EmptyString. auto.
  - destruct (p c) eqn:E.
    + destruct IH as [a [Ha Hp]]. exists (String c a). simpl.
      split; [now rewrite <- Ha | now rewrite E, Hp].
    + exists EmptyString. auto.
Qed.

Lemma rstrip_split (p : ascii -> bool) (s : string) :
  exists b, s = rstrip p s ++ b /\ string_forallb p b = true.
Proof.
  induction s as [|c s IH]; simpl.
  - exists EmptyString. auto.
  - destruct IH as [b [Hb Hp]]. destruct (rstrip p s) as [|d r] eqn:E.
    + simpl in Hb. destruct (p c) eqn:Ec.
      * exists (String c b). simpl. split; [now rewrite <- Hb | now rewrite Ec, Hp].
      * exists b. simpl. split; [now rewrite <- Hb | exact Hp].
    + exists b. simpl. split; [now rewrite Hb at 1 | exact Hp].
Qed.

Lemma strip_chars_split (p : ascii -> bool) (s : string) :
  exists a b, s = a ++ strip_chars p s ++ b
              /\ string_forallb p a = true /\ string_forallb p b = true.
Proof.
  unfold strip_chars.
  destruct (lstrip_split p s) as [a [Ha Hpa]].
  destruct (rstrip_split p (lstrip p s)) as [b [Hb Hpb]].
  exists a, b. split; [|auto]. now rewrite <- Hb.
Qed.

Lemma lstrip_first (p : ascii -> bool) (s : string) :
  match first_char (lstrip p s) with Some c => p c = false | None => True end.
Proof.
  induction s as [|c s IH]; simpl; [exact I|].
  destruct (p c) eqn:E; [exact IH | exact E].
Qed.

Lemma rstrip_last (p : ascii -> bool) (s : string) :
  match last_char (rstrip p s) with Some c => p c = false | None => True end.
Proof.
  induction s as [|c s IH]; simpl; [exact I|].
  destruct (rstrip p s) as [|d r] eqn:E.
  - destruct (p c) eqn:Ec; simpl; auto.
  - exact IH.
Qed.

Lemma rstrip_first (p : ascii -> bool) (s : string) :
  match first_char s with Some c => p c = false | None => True end ->
  match first_char (rstrip p s) with Some c => p c = false | None => True end.
Proof.
  destruct s as [|c s]; simpl; [auto|]. intros Hc.
  destruct (rstrip p s); [rewrite Hc|]; simpl; exact Hc.
Qed.

Lemma strip_chars_idempotent (p : ascii -> bool) (s : string) :
  strip_chars p (strip_chars p s) = strip_chars p s.
Proof.
  apply strip_chars_id.
  - unfold strip_chars. apply rstrip_first, lstrip_first.
  - unfold strip_chars. apply rstrip_last.
Qed.

Lemma lower_char_idempotent (c : ascii) : lower_char (lower_char c) = lower_char c.
Proof. destruct c as [[] [] [] [] [] [] [] []]; reflexivity. Qed.

Lemma lower_idempotent (s : string) : lower (lower s) = lower s.
Proof.
  induction s as [|c s IH]; simpl; [reflexivity|].
  now rewrite lower_char_idempotent, IH.
Qed.

(** X5.  Header cleaning removes nothing but whitespace and quote
    characters, and only at the two ends: the header is the cleaned name
    between a prefix and a suffix made of such characters. *)
Theorem clean_col_trims_ends (h : string) :
  exists a b,
    h = a ++ clean_col h ++ b
    /\ string_forallb is_trim_char a = true
    /\ string_forallb is_trim_char b = true.
Proof.
  unfold clean_col, strip, strip_char.
  destruct (strip_chars_split is_space h) as [a1 [b1 [E1 [A1 B1]]]].
  set (s1 := strip_chars is_space h) in *.
  destruct (strip_chars_split (Ascii.eqb dquote) s1) as [a2 [b2 [E2 [A2 B2]]]].
  set (s2 := strip_chars (Ascii.eqb dquote) s1) in *.
  destruct (strip_chars_split (Ascii.eqb squote) s2) as [a3 [b3 [E3 [A3 B3]]]].
  set (s3 := strip_chars (Ascii.eqb squote) s2) in *.
  assert (T1 : forall c, is_space c = true -> is_trim_char c = true).
  { intros c H. unfold is_trim_char. now rewrite H. }
  assert (T2 : forall c, Ascii.eqb dquote c = true -> is_trim_char c = true).
  { intros c H. unfold is_trim_char. rewrite H. now rewrite orb_true_r. }
  assert (T3 : forall c, Ascii.eqb squote c = true -> is_trim_char c = true).
  { intros c H. unfold is_trim_char. rewrite H. now rewrite orb_true_r. }
  exists (a1 ++ a2 ++ a3), (b3 ++ b2 ++ b1). split; [|split].
  - rewrite E1 at 1. rewrite E2 at 1. rewrite E3 at 1.
    now rewrite !string_app_assoc.
  - rewrite !string_forallb_app.
    rewrite (string_forallb_impl _ _ _ T1 A1), (string_forallb_impl _ _ _ T2 A2),
            (string_forallb_impl _ _ _ T3 A3). reflexivity.
  - rewrite !string_forallb_app.
    rewrite (string_forallb_impl _ _ _ T1 B1), (string_forallb_impl _ _ _ T2 B2),
            (string_forallb_impl _ _ _ T3 B3). reflexivity.
Qed.

Lemma normalize_type_twice (type_val : option string) :
  normalize_type (normalize_type type_val) = normalize_type type_val.
Proof.
  destruct type_val as [v|]; [|reflexivity].
  rewrite (normalize_type_Some v).
  destruct (mem (lower (strip v)) purchase_words) eqn:Ep; [reflexivity|].
  destruct (mem (lower (strip v)) sale_words) eqn:Es; [reflexivity|].
  assert (W : lower (strip (lower (strip v))) = lower (strip v)).
  { rewrite <- lower_strip. unfold strip. rewrite strip_chars_idempotent.
    apply lower_idempotent. }
  now rewrite normalize_type_Some, W, Ep, Es.
Qed.

(** X6.  Type normalisation is idempotent: a normalised type is
    normalised to itself. *)
Theorem normalize_type_idempotent (type_val : option string) :
  normalize_type (normalize_type type_val) = normalize_type type_val.
Proof. exact (normalize_type_twice type_val). Qed.

(** ** Lines 31-56: which rows reach [cs2_df] *)

Lemma retained_game (r0 : row) :
  retained r0 = true -> game_name (process r0) = Some "Counter-Strike 2".
Proof.
  unfold retained, process. destruct r0 as [g a t n p]. simpl.
  intros H. apply andb_true_iff in H as [H _]. apply andb_true_iff in H as [H _].
  now apply cell_is_true.
Qed.

Lemma process_type (r0 : row) : type_ (process r0) = normalize_type (type_ r0).
Proof. now destruct r0. Qed.

(** X8.  Every row of [cs2_df] belongs to Counter-Strike 2, carries a
    timestamp, and has a type that is present and already normalised:
    normalising it again returns it. *)
Theorem cs2_df_rows_normalised (df : list row) (r : row) :
  In r (cs2_df df) ->
  game_name r = Some "Counter-Strike 2"
  /\ (exists y m d, acted_on r = Timestamp y m d)
  /\ (exists t, type_ r = Some t /\ normalize_type (Some t) = Some t).
Proof.
  intros H. apply in_cs2_df in H as [r0 [_ [Hk ->]]].
  destruct (retained_cells r0 Hk) as [_ [_ [[t Ht] Hd]]].
  split; [now apply retained_game|]. split; [exact Hd|].
  exists t. split; [exact Ht|].
  rewrite <- Ht, process_type. apply normalize_type_twice.
Qed.

Lemma cs2_df_rows_normalised_witness :
  game_name (mkRow (Some "Counter-Strike 2") (Timestamp 1900 1 5) (Some "sale")
               (Some "AK-47 | Redline") (PriceNum 1050))
  = Some "Counter-Strike 2"
  /\ (exists y m d,
        acted_on (mkRow (Some "Counter-Strike 2") (Timestamp 1900 1 5) (Some "sale")
                    (Some "AK-47 | Redline") (PriceNum 1050)) = Timestamp y m d)
  /\ (exists t,
        type_ (mkRow (Some "Counter-Strike 2") (Timestamp 1900 1 5) (Some "sale")
                 (Some "AK-47 | Redline") (PriceNum 1050)) = Some t
        /\ normalize_type (Some t) = Some t).
Proof.
  apply (cs2_df_rows_normalised [row_dota; row_sold_redline]).
  simpl. left. reflexivity.
Defined.

(** ** Lines 64-70: the counts *)

(** X9.  Purchases and sales are disjoint, and with the rows of any other
    type they account for every row: the two counts of the summary and of
    the pie data add up to the number of rows less the rows of other
    types. *)
Theorem counts_partition (df : list row) :
  (s_purchase_count (summary df) + s_sale_count (summary df)
   + length (other_rows df) = length df)%nat
  /\ map pie_value (pie_data df)
     = [s_purchase_count (summary df); s_sale_count (summary df)]
  /\ (forall r, In r (purchases df) -> ~ In r (sales df)).
Proof.
  split; [|split].
  - cbn [summary s_purchase_count s_sale_count].
    unfold purchases, sales, other_rows.
    induction df as [|r df IH]; [reflexivity|]. cbn [filter length].
    destruct (cell_is "purchase" (type_ r)) eqn:Ep;
      destruct (cell_is "sale" (type_ r)) eqn:Es; cbn [orb negb length].
    + apply cell_is_true in Ep, Es. congruence.
    + lia.
    + lia.
    + lia.
  - reflexivity.
  - intros r Hp Hs. unfold purchases, sales in *.
    apply filter_In in Hp as [_ Hp]. apply filter_In in Hs as [_ Hs].
    apply cell_is_true in Hp, Hs. congruence.
Qed.

Lemma counts_partition_witness :
  ~ In (mkRow (Some "Counter-Strike 2") (Timestamp 1900 1 6) (Some "purchase")
          (Some "Fracture Case") (PriceNum (21 # 2)))
       (sales (cs2_df (rows sample_frame))).
Proof.
  apply (proj2 (proj2 (counts_partition (cs2_df (rows sample_frame))))).
  vm_compute. left. reflexivity.
Defined.

(** ** Groups partition the frame *)

Section Partition.
Variable K : Type.
Variable cmp : K -> K -> comparison.
Variable key : row -> option K.
Hypothesis cmp_eq : forall a b, cmp a b = Eq -> a = b.
Hypothesis cmp_refl : forall a, cmp a a = Eq.

Lemma rows_of_key_in (k : K) (df : list row) (r : row) :
  In r (rows_of_key cmp key k df) <-> In r df /\ key r = Some k.
Proof.
  unfold rows_of_key. rewrite filter_In. split; intros [H1 H2]; split; auto.
  - destruct (key r) as [k'|]; [|discriminate].
    apply (same_key_true _ _ cmp_eq cmp_refl) in H2. now subst.
  - rewrite H2. now apply (same_key_true _ _ cmp_eq cmp_refl).
Qed.

Lemma groups_skip (ks : list K) (r : row) (df : list row) (k0 : K) :
  key r = Some k0 -> ~ In k0 ks ->
  concat (map (fun k => rows_of_key cmp key k (r :: df)) ks)
  = concat (map (fun k => rows_of_key cmp key k df) ks).
Proof.
  intros Hr. induction ks as [|k ks IH]; intros Hn; [reflexivity|].
  cbn [map concat]. rewrite IH by (intros C; apply Hn; now right).
  f_equal. unfold rows_of_key. cbn [filter]. rewrite Hr.
  destruct (same_key cmp k0 k) eqn:E; [|reflexivity].
  apply (same_key_true _ _ cmp_eq cmp_refl) in E. subst. elim Hn. now left.
Qed.

Lemma groups_take (ks : list K) (r : row) (df : list row) (k0 : K) :
  key r = Some k0 -> NoDup ks -> In k0 ks ->
  Permutation (concat (map (fun k => rows_of_key cmp key k (r :: df)) ks))
              (r :: concat (map (fun k => rows_of_key cmp key k df) ks)).
Proof.
  intros Hr. induction ks as [|k ks IH]; intros Hnd Hin; [destruct Hin|].
  inversion Hnd as [|? ? Hk Hnd']; subst. cbn [map concat].
  destruct (same_key cmp k0 k) eqn:E.
  - apply (same_key_true _ _ cmp_eq cmp_refl) in E. subst k.
    rewrite (groups_skip ks r df k0 Hr Hk).
    unfold rows_of_key at 1. cbn [filter]. rewrite Hr.
    assert (T : same_key cmp k0 k0 = true)
      by now apply (same_key_true _ _ cmp_eq cmp_refl).
    rewrite T. apply Permutation_refl.
  - destruct Hin as [->|Hin].
    { assert (T : same_key cmp k0 k0 = true)
        by now apply (same_key_true _ _ cmp_eq cmp_refl).
      congruence. }
    unfold rows_of_key at 1. cbn [filter]. rewrite Hr, E.
    fold (rows_of_key cmp key k df).
    eapply Permutation_trans;
      [apply Permutation_app_head, (IH Hnd' Hin)|].
    apply Permutation_sym, Permutation_middle.
Qed.

(** The groups of pairwise distinct keys that cover the keys of the frame
    hold every row exactly once. *)
Lemma groups_permutation (ks : list K) (df : list row) :
  NoDup ks ->
  (forall r, In r df -> exists k, key r = Some k /\ In k ks) ->
  Permutation (concat (map (fun k => rows_of_key cmp key k df) ks)) df.
Proof.
  intros Hnd. induction df as [|r df IH]; intros Hcov.
  - assert (E : concat (map (fun k => rows_of_key cmp key k []) ks) = []).
    { clear. induction ks as [|k ks IH]; [reflexivity|]. cbn [map concat].
      now rewrite IH. }
    rewrite E. constructor.
  - destruct (Hcov r (or_introl eq_refl)) as [k0 [Hr Hin]].
    eapply Permutation_trans; [apply (groups_take ks r df k0 Hr Hnd Hin)|].
    constructor. apply IH. intros x Hx. apply Hcov. now right.
Qed.

Hypothesis cmp_antisym : forall a b, cmp a b = CompOpp (cmp b a).
Hypothesis cmp_trans : forall a b c, cmp a b = Lt -> cmp b c = Lt -> cmp a c = Lt.

Lemma groupby_keys (df : list row) :
  map fst (groupby cmp key df) = sorted_keys cmp (somes (map key df)).
Proof.
  unfold groupby. rewrite map_map. cbn [fst]. apply map_id.
Qed.

Lemma groupby_permutation (df : list row) :
  (forall r, In r df -> key r <> None) ->
  Permutation (concat (map snd (groupby cmp key df))) df.
Proof.
  intros Hkey. unfold groupby. rewrite map_map. cbn [snd].
  apply groups_permutation.
  - apply (sorted_keys_NoDup _ _ cmp_refl cmp_antisym cmp_trans).
  - intros r Hr. destruct (key r) as [k|] eqn:E; [|elim (Hkey r Hr E)].
    exists k. split; [reflexivity|].
    apply (sorted_keys_complete _ _ cmp_eq cmp_refl), in_somes.
    rewrite <- E. now apply in_map.
Qed.
End Partition.

Lemma length_concat_sum (gs : list (list row)) :
  length (concat gs) = list_sum (map (@length row) gs).
Proof.
  induction gs as [|g gs IH]; simpl; [reflexivity|].
  now rewrite length_app, IH.
Qed.

Lemma filter_all {A : Type} (f : A -> bool) (l : list A) :
  (forall x, In x l -> f x = true) -> filter f l = l.
Proof.
  induction l as [|a l IH]; intros H; simpl; [reflexivity|].
  rewrite (H a (or_introl eq_refl)), IH; [reflexivity|].
  intros x Hx. apply H. now right.
Qed.

Section GroupTotals.
Variable K : Type.
Variable cmp : K -> K -> comparison.
Variable key : row -> option K.
Hypothesis cmp_eq : forall a b, cmp a b = Eq -> a = b.
Hypothesis cmp_refl : forall a, cmp a a = Eq.
Hypothesis cmp_antisym : forall a b, cmp a b = CompOpp (cmp b a).
Hypothesis cmp_trans : forall a b c, cmp a b = Lt -> cmp b c = Lt -> cmp a c = Lt.
Variable df : list row.
Hypothesis key_present : forall r, In r df -> key r <> None.

Lemma groupby_total_count (f : row -> bool) :
  (forall r, In r df -> f r = true) ->
  list_sum (map (fun g => length (filter f (snd g))) (groupby cmp key df))
  = length df.
Proof.
  intros Hf.
  rewrite (map_ext_in _ (fun g => length (snd g))).
  - rewrite <- (map_map snd (@length row)), <- length_concat_sum.
    apply Permutation_length.
    apply (groupby_permutation K cmp key cmp_eq cmp_refl cmp_antisym cmp_trans
             df key_present).
  - intros g Hg. f_equal. apply filter_all. intros r Hr. apply Hf.
    unfold groupby in Hg. apply in_map_iff in Hg as [k [<- _]].
    cbn [snd] in Hr. apply (rows_of_key_in K cmp key cmp_eq cmp_refl) in Hr.
    tauto.
Qed.

Lemma groupby_keys_ascending :
  ascending cmp (map fst (groupby cmp key df)).
Proof.
  rewrite groupby_keys.
  apply (sorted_keys_ascending _ _ cmp_antisym cmp_trans).
Qed.
End GroupTotals.

(** ** Lines 75-84 and 132-141: item details and line data *)

Lemma cs2_df_cells (df : list row) (r : row) :
  In r (cs2_df df) ->
  price_isna (price r) = false
  /\ isna (market_name r) = false
  /\ market_name r <> None
  /\ date_name_key r <> None
  /\ category_type_key r <> None.
Proof.
  intros H. apply in_cs2_df in H as [r0 [_ [Hk ->]]].
  destruct (retained_cells r0 Hk) as [[q [_ Hq]] [[n Hn] [[t Ht] [y [m [d Hd]]]]]].
  unfold date_name_key, category_type_key. rewrite Hq, Hn, Ht, Hd. simpl.
  repeat split; discriminate.
Qed.

(** The groups of [groupby], one after the other, hold every row of the
    frame exactly once. *)
Lemma groupby_rows (K : Type) (cmp : K -> K -> comparison) (key : row -> option K)
      (rows_of : K -> list row) (df : list row) :
  (forall k, rows_of_key cmp key k df = rows_of k) ->
  map (fun g => rows_of (fst g)) (groupby cmp key df) = map snd (groupby cmp key df).
Proof.
  intros H. unfold groupby. rewrite !map_map. apply map_ext. intros k.
  cbn [fst snd]. now rewrite H.
Qed.

(** X10.  The item details of [cs2_df] list the item names in strictly
    ascending order, so each name once; their transaction counts add up to
    the number of rows, and the rows of the items, taken item after item,
    are the rows of the frame, each once: every row is counted under
    exactly one item.  The total of an item is the sum of the prices of
    its rows over 100. *)
Theorem item_details_partition (df : list row) :
  ascending String.compare (map item_market_name (item_details (cs2_df df)))
  /\ list_sum (map transaction_count (item_details (cs2_df df)))
     = length (cs2_df df)
  /\ Permutation
       (concat (map (fun d => item_rows (item_market_name d) (cs2_df df))
                    (item_details (cs2_df df))))
       (cs2_df df)
  /\ (forall d, In d (item_details (cs2_df df)) ->
        total_eur d =
        Div100 (GroupSum (price_values (item_rows (item_market_name d) (cs2_df df))))).
Proof.
  assert (Hkey : forall r, In r (cs2_df df) -> market_name r <> None).
  { intros r Hr. now apply (cs2_df_cells df r Hr). }
  split; [|split; [|split]].
  - unfold item_details. rewrite !map_map. cbn [item_market_name].
    apply (groupby_keys_ascending _ _ _ String.compare_antisym string_compare_trans).
  - unfold item_details. rewrite !map_map. cbn [transaction_count].
    apply (groupby_total_count _ _ _ String.compare_eq_iff string_compare_refl
             String.compare_antisym string_compare_trans _ Hkey).
    intros r Hr. destruct (cs2_df_cells df r Hr) as [Hp _]. now rewrite Hp.
  - unfold item_details. rewrite !map_map. cbn [item_market_name].
    rewrite (groupby_rows _ _ _ (fun n => item_rows n (cs2_df df)))
      by (intros k; apply rows_of_key_item).
    apply (groupby_permutation _ _ _ String.compare_eq_iff string_compare_refl
             String.compare_antisym string_compare_trans _ Hkey).
  - apply item_details_total.
Qed.

(** X11.  The line data of [cs2_df] list the pairs of date and item name
    in strictly ascending order, so each pair once; their counts add up to
    the number of rows, and the rows of the pairs, taken pair after pair,
    are the rows of the frame, each once.  The value of a pair is the sum
    of the prices of its rows over 100. *)
Theorem line_data_partition (df : list row) :
  ascending pair_compare
    (map (fun rec => (Date rec, line_market_name rec)) (line_data (cs2_df df)))
  /\ list_sum (map count (line_data (cs2_df df))) = length (cs2_df df)
  /\ Permutation
       (concat (map (fun rec => line_rows (Date rec) (line_market_name rec) (cs2_df df))
                    (line_data (cs2_df df))))
       (cs2_df df)
  /\ (forall rec, In rec (line_data (cs2_df df)) ->
        value rec =
        Div100 (GroupSum (price_values
                            (line_rows (Date rec) (line_market_name rec) (cs2_df df))))).
Proof.
  assert (Hkey : forall r, In r (cs2_df df) -> date_name_key r <> None).
  { intros r Hr. now apply (cs2_df_cells df r Hr). }
  split; [|split; [|split]].
  - unfold line_data. rewrite !map_map. cbn [Date line_market_name].
    rewrite (map_ext _ fst) by (intros [[d n] g]; reflexivity).
    apply (groupby_keys_ascending _ _ _ pair_compare_antisym pair_compare_trans).
  - unfold line_data. rewrite !map_map. cbn [count].
    apply (groupby_total_count _ _ _ pair_compare_eq pair_compare_refl
             pair_compare_antisym pair_compare_trans _ Hkey).
    intros r Hr. destruct (cs2_df_cells df r Hr) as [_ [Hn _]]. now rewrite Hn.
  - unfold line_data. rewrite !map_map. cbn [Date line_market_name].
    rewrite (groupby_rows _ _ _ (fun k => line_rows (fst k) (snd k) (cs2_df df)))
      by (intros [d n]; apply rows_of_key_line).
    apply (groupby_permutation _ _ _ pair_compare_eq pair_compare_refl
             pair_compare_antisym pair_compare_trans _ Hkey).
  - apply line_data_value.
Qed.

(** ** [value_counts]: the type breakdown and the most purchased item *)

Lemma insert_desc_perm (e : string * nat) (l : list (string * nat)) :
  Permutation (insert_desc e l) (e :: l).
Proof.
  induction l as [|h t IH]; simpl; [apply Permutation_refl|].
  destruct (snd e <? snd h)%nat; [|apply Permutation_refl].
  eapply Permutation_trans; [apply perm_skip, IH | apply perm_swap].
Qed.

Lemma value_counts_perm (xs : list string) :
  Permutation (value_counts xs) (map (fun x => (x, count_of x xs)) (distinct xs)).
Proof.
  unfold value_counts.
  induction (map (fun x => (x, count_of x xs)) (distinct xs)) as [|e l IH]; simpl.
  - constructor.
  - eapply Permutation_trans; [apply insert_desc_perm | now apply perm_skip].
Qed.

Lemma insert_desc_descending (e : string * nat) (l : list (string * nat)) :
  descending l -> descending (insert_desc e l).
Proof.
  unfold descending. induction l as [|h t IH]; intros H; simpl.
  - constructor; constructor.
  - inversion H as [|? ? Hs Hall]; subst.
    destruct (snd e <? snd h)%nat eqn:E.
    + apply Nat.ltb_lt in E. constructor; [auto|].
      apply Forall_forall. intros x Hx.
      apply (Permutation_in _ (insert_desc_perm e t)) in Hx as [<-|Hx]; [lia|].
      rewrite Forall_forall in Hall. auto.
    + apply Nat.ltb_ge in E. constructor; [exact H|].
      constructor; [exact E|].
      eapply Forall_impl; [|exact Hall]. simpl. intros a Ha. lia.
Qed.

Lemma value_counts_descending (xs : list string) : descending (value_counts xs).
Proof.
  unfold value_counts.
  induction (map (fun x => (x, count_of x xs)) (distinct xs)) as [|e l IH]; simpl.
  - constructor.
  - now apply insert_desc_descending.
Qed.

Lemma distinct_In (x : string) (xs : list string) : In x (distinct xs) <-> In x xs.
Proof.
  induction xs as [|a xs IH]; simpl; [tauto|].
  rewrite filter_In, IH, negb_true_iff, String.eqb_neq.
  destruct (string_dec a x) as [->|N]; [tauto|].
  split; [tauto|]. intros [H|H]; [contradiction|]. right. split; congruence.
Qed.

Lemma distinct_NoDup (xs : list string) : NoDup (distinct xs).
Proof.
  induction xs as [|a xs IH]; simpl; constructor.
  - rewrite filter_In, negb_true_iff, String.eqb_neq. tauto.
  - now apply NoDup_filter.
Qed.

Lemma count_of_pos (x : string) (xs : list string) :
  In x xs <-> (0 < count_of x xs)%nat.
Proof.
  unfold count_of. induction xs as [|a xs IH]; simpl; [lia|].
  destruct (x =? a) eqn:E; simpl.
  - apply String.eqb_eq in E. subst. split; [lia | auto].
  - apply String.eqb_neq in E. rewrite <- IH. split; [|auto].
    intros [H|H]; [congruence | exact H].
Qed.

Lemma indicator_sum (x : string) (ks : list string) :
  NoDup ks -> In x ks ->
  list_sum (map (fun k => if (k =? x)%string then 1%nat else 0%nat) ks) = 1%nat.
Proof.
  induction 1 as [|k ks Hk Hnd IH]; intros Hin; [destruct Hin|]. simpl.
  destruct (k =? x) eqn:E.
  - apply String.eqb_eq in E. subst k.
    assert (Z : list_sum (map (fun k => if (k =? x)%string then 1%nat else 0%nat) ks) = 0%nat).
    { clear -Hk. induction ks as [|a ks IH]; [reflexivity|]. simpl.
      destruct (a =? x) eqn:E.
      - apply String.eqb_eq in E. subst. elim Hk. now left.
      - apply IH. intros C. apply Hk. now right. }
    now rewrite Z.
  - destruct Hin as [->|Hin]; [now rewrite String.eqb_refl in E|].
    now rewrite (IH Hin).
Qed.

Lemma count_partition (ks xs : list string) :
  NoDup ks -> (forall x, In x xs -> In x ks) ->
  list_sum (map (fun k => count_of k xs) ks) = length xs.
Proof.
  intros Hnd. induction xs as [|a xs IH]; intros Hcov.
  - clear. induction ks as [|k ks IH]; [reflexivity|]. simpl. exact IH.
  - assert (E : list_sum (map (fun k => count_of k (a :: xs)) ks)
                = (list_sum (map (fun k => if (k =? a)%string then 1%nat else 0%nat) ks)
                   + list_sum (map (fun k => count_of k xs) ks))%nat).
    { clear. unfold list_sum.
      induction ks as [|k ks IH]; [reflexivity|]. cbn [map fold_right].
      rewrite IH. unfold count_of. cbn [filter].
      destruct (k =? a); simpl; lia. }
    rewrite E, (indicator_sum a ks Hnd (Hcov a (or_introl eq_refl))), IH.
    + reflexivity.
    + intros x Hx. apply Hcov. now right.
Qed.

Lemma value_counts_total (xs : list string) :
  list_sum (map snd (value_counts xs)) = length xs.
Proof.
  rewrite (Permutation_list_sum
             (Permutation_map snd (value_counts_perm xs))).
  rewrite map_map. cbn [snd].
  apply count_partition; [apply distinct_NoDup|].
  intros x. apply distinct_In.
Qed.

Lemma value_counts_In (xs : list string) (x : string) (n : nat) :
  In (x, n) (value_counts xs) <-> n = count_of x xs /\ (0 < n)%nat.
Proof.
  split.
  - intros H. apply (Permutation_in _ (value_counts_perm xs)), in_map_iff in H
      as [y [E Hy]]. inversion E; subst. split; [reflexivity|].
    now apply count_of_pos, distinct_In.
  - intros [-> Hpos].
    apply (Permutation_in _ (Permutation_sym (value_counts_perm xs))), in_map_iff.
    exists x. split; [reflexivity|]. now apply distinct_In, count_of_pos.
Qed.

Lemma value_counts_keys_NoDup (xs : list string) :
  NoDup (map fst (value_counts xs)).
Proof.
  apply (Permutation_NoDup
           (Permutation_sym (Permutation_map fst (value_counts_perm xs)))).
  rewrite map_map. cbn [fst]. rewrite map_id. apply distinct_NoDup.
Qed.

Lemma count_of_cells (t : string) (f : row -> option string) (g : list row) :
  count_of t (somes (map f g)) = length (filter (fun r => cell_is t (f r)) g).
Proof.
  unfold count_of. induction g as [|r g IH]; [reflexivity|]. cbn [map somes filter].
  destruct (f r) as [v|]; cbn [somes filter cell_is]; [|exact IH].
  rewrite (String.eqb_sym t v). destruct (v =? t); simpl; now rewrite IH.
Qed.

Lemma cs2_df_type_present (df : list row) (r : row) :
  In r (cs2_df df) -> type_ r <> None.
Proof.
  intros H. apply in_cs2_df in H as [r0 [_ [Hk ->]]].
  destruct (retained_cells r0 Hk) as [_ [_ [[t Ht] _]]]. congruence.
Qed.

Lemma somes_length {A : Type} (f : row -> option A) (g : list row) :
  (forall r, In r g -> f r <> None) -> length (somes (map f g)) = length g.
Proof.
  induction g as [|r g IH]; intros H; [reflexivity|]. cbn [map somes].
  destruct (f r) eqn:E; [|elim (H r (or_introl eq_refl) E)].
  simpl. rewrite IH; [reflexivity|]. intros x Hx. apply H. now right.
Qed.

(** X13.  For every item of [cs2_df], the transaction count is the number
    of its rows; the type breakdown lists each type of those rows once,
    with the number of rows of that type, in decreasing order of count,
    and its counts add up to the transaction count. *)
Theorem type_breakdown_counts (df : list row) (d : item_detail) :
  In d (item_details (cs2_df df)) ->
  transaction_count d = length (item_rows (item_market_name d) (cs2_df df))
  /\ list_sum (map snd (type_breakdown d)) = transaction_count d
  /\ NoDup (map fst (type_breakdown d))
  /\ descending (type_breakdown d)
  /\ (forall t n,
        In (t, n) (type_breakdown d) <->
        n = typed_rows_of (item_market_name d) t (cs2_df df) /\ (0 < n)%nat).
Proof.
  unfold item_details, groupby. rewrite map_map. intros H.
  apply in_map_iff in H as [k [<- _]].
  cbn [transaction_count type_breakdown item_market_name fst snd].
  rewrite rows_of_key_item.
  assert (Hin : forall r, In r (item_rows k (cs2_df df)) -> In r (cs2_df df)).
  { intros r Hr. unfold item_rows in Hr. now apply filter_In in Hr. }
  assert (Hc : length (filter (fun r => negb (price_isna (price r)))
                         (item_rows k (cs2_df df)))
               = length (item_rows k (cs2_df df))).
  { f_equal. apply filter_all. intros r Hr.
    destruct (cs2_df_cells df r (Hin r Hr)) as [Hp _]. now rewrite Hp. }
  split; [exact Hc|]. split; [|split; [|split]].
  - rewrite value_counts_total, Hc. apply somes_length.
    intros r Hr. apply (cs2_df_type_present df). auto.
  - apply value_counts_keys_NoDup.
  - apply value_counts_descending.
  - intros t n. rewrite value_counts_In, count_of_cells. reflexivity.
Qed.

Lemma type_breakdown_counts_witness :
  transaction_count
    (mkItemDetail "Fracture Case" 1 (Div100 (GroupSum [(21 # 2)%Q]))
                         [("purchase", 1%nat)])
  = length (item_rows "Fracture Case" (cs2_df (rows sample_frame)))
  /\ list_sum (map snd [("purchase", 1%nat)]) = 1%nat
  /\ NoDup (map fst [("purchase", 1%nat)])
  /\ descending [("purchase", 1%nat)]
  /\ (forall t n,
        In (t, n) [("purchase", 1%nat)] <->
        n = typed_rows_of "Fracture Case" t (cs2_df (rows sample_frame))
        /\ (0 < n)%nat).
Proof.
  apply (type_breakdown_counts (rows sample_frame)
           (mkItemDetail "Fracture Case" 1 (Div100 (GroupSum [(21 # 2)%Q]))
                         [("purchase", 1%nat)])).
  vm_compute. right. left. reflexivity.
Defined.

Lemma purchases_of_count (m : string) (df : list row) :
  purchases_of m df = count_of m (somes (map market_name (purchases df))).
Proof. unfold purchases_of, item_rows. now rewrite count_of_cells. Qed.

(** X14.  Without a purchase in [cs2_df] the most purchased item is the
    text None; otherwise it is an item with at least one purchase, and no
    item has more purchase rows than it. *)
Theorem most_purchased_item_max (df : list row) :
  (purchases (cs2_df df) = [] -> most_purchased_item (cs2_df df) = "None")
  /\ (purchases (cs2_df df) <> [] ->
      (0 < purchases_of (most_purchased_item (cs2_df df)) (cs2_df df))%nat
      /\ forall m,
           (purchases_of m (cs2_df df)
            <= purchases_of (most_purchased_item (cs2_df df)) (cs2_df df))%nat).
Proof.
  split.
  - intros E. unfold most_purchased_item. now rewrite E.
  - intros Hne.
    assert (P : forall m, purchases_of m (cs2_df df)
                = count_of m (somes (map market_name (purchases (cs2_df df)))))
      by (intros m; apply purchases_of_count).
    rewrite !P. setoid_rewrite P.
    unfold most_purchased_item.
    set (names := somes (map market_name (purchases (cs2_df df)))) in *.
    assert (L : length names = length (purchases (cs2_df df))).
    { apply somes_length. intros r Hr. unfold purchases in Hr.
      apply filter_In in Hr as [Hr _]. now apply (cs2_df_cells df r Hr). }
    destruct (purchases (cs2_df df)) as [|r p] eqn:Ep; [congruence|].
    cbv beta iota. change (somes (map market_name (r :: p))) with names.
    pose proof (value_counts_total names) as T.
    pose proof (value_counts_descending names) as D.
    assert (I : forall x n, In (x, n) (value_counts names)
                            <-> n = count_of x names /\ (0 < n)%nat)
      by (intros; apply value_counts_In).
    destruct (value_counts names) as [|[n c] tl].
    { simpl in T. rewrite L in T. discriminate T. }
    destruct (proj1 (I n c) (or_introl eq_refl)) as [Hc Hpos].
    split; [now rewrite <- Hc|].
    intros m. rewrite <- Hc.
    destruct (Nat.eq_dec (count_of m names) 0) as [Z|NZ]; [lia|].
    assert (Hm : In (m, count_of m names) ((n, c) :: tl)) by (apply I; lia).
    destruct Hm as [Hm|Hm]; [inversion Hm; lia|].
    inversion D as [|? ? _ Hall]; subst. rewrite Forall_forall in Hall.
    exact (Hall _ Hm).
Qed.

Lemma most_purchased_item_max_witness :
  (0 < purchases_of (most_purchased_item (cs2_df (rows sample_frame)))
                    (cs2_df (rows sample_frame)))%nat
  /\ forall m,
       (purchases_of m (cs2_df (rows sample_frame))
        <= purchases_of (most_purchased_item (cs2_df (rows sample_frame)))
                        (cs2_df (rows sample_frame)))%nat.
Proof.
  apply (proj2 (most_purchased_item_max (rows sample_frame))).
  vm_compute. discriminate.
Defined.

(** ** The highest price *)









(** ** Line 54 and 132: the year of every date *)

Lemma retained_loaded_date (r0 : row) :
  retained r0 = true -> as_loaded (acted_on r0) = true ->
  exists d m, acted_on (process r0) = Timestamp 1900 m d.
Proof.
  unfold retained, process. destruct r0 as [g a t n p]. simpl.
  intros H L. apply andb_true_iff in H as [_ H]. apply negb_true_iff in H.
  destruct a; try discriminate. simpl. eauto.
Qed.

(** X17.  The date format has no year, so every date of the line data of
    a loaded file lies in the year 1900: the text is 1900, a dash, two
    digits of month, a dash, two digits of day. *)
Theorem line_dates_in_1900 (df : list row) (rec : line_record) :
  (forall r, In r df -> as_loaded (acted_on r) = true) ->
  In rec (line_data (cs2_df df)) ->
  exists m d, Date rec = "1900-" ++ two_digits m ++ "-" ++ two_digits d.
Proof.
  intros Hl H. unfold line_data, groupby in H. rewrite map_map in H.
  apply in_map_iff in H as [[dt n] [<- Hk]]. cbn [Date fst snd].
  apply sorted_keys_In, in_somes, in_map_iff in Hk as [r [Hkey Hr]].
  apply in_cs2_df in Hr as [r0 [Hin [Hret ->]]].
  destruct (retained_loaded_date r0 Hret (Hl r0 Hin)) as [d [m Hd]].
  unfold date_name_key in Hkey. rewrite Hd in Hkey. cbn [strftime] in Hkey.
  destruct (market_name (process r0)); [|discriminate].
  injection Hkey as <- _. exists m, d. reflexivity.
Qed.

Lemma line_dates_in_1900_witness :
  exists m d,
    Date (mkLine "1900-01-05" "AK-47 | Redline" (Div100 (GroupSum [1050%Q])) 1)
    = "1900-" ++ two_digits m ++ "-" ++ two_digits d.
Proof.
  apply (line_dates_in_1900 (rows sample_frame)
           (mkLine "1900-01-05" "AK-47 | Redline" (Div100 (GroupSum [1050%Q])) 1)).
  - intros r Hr. vm_compute in Hr.
    repeat (destruct Hr as [<-|Hr]; [reflexivity|]). destruct Hr.
  - vm_compute. left. reflexivity.
Defined.

(** ** Lines 325 and 335: what the item tooltip divides by *)

Lemma Qeq_bool_false (x : Q) : ~ (x == 0)%Q -> Qeq_bool x 0 = false.
Proof.
  intros H. destruct (Qeq_bool x 0) eqn:E; [|reflexivity].
  apply Qeq_bool_iff in E. contradiction.
Qed.

Lemma count_nonzero (n : nat) :
  (0 < n)%nat -> ~ (inject_Z (Z.of_nat n) == 0)%Q.
Proof. unfold Qeq. simpl. lia. Qed.

Lemma js_get_present (key : string) (n : nat) (o : list (string * nat)) :
  NoDup (map fst o) -> In (key, n) o -> js_get key o = js_count n.
Proof.
  unfold js_get. induction o as [|[k v] o IH]; intros Hnd Hin; [destruct Hin|].
  inversion Hnd as [|? ? Hk Hnd']; subst. cbn [find fst].
  destruct Hin as [E|Hin].
  - inversion E; subst. now rewrite String.eqb_refl.
  - destruct (k =? key) eqn:E.
    + apply String.eqb_eq in E. subst. elim Hk.
      apply in_map_iff. exists (key, n). auto.
    + now apply IH.
Qed.

(** X18.  For an item of [cs2_df] that has purchases, the item tooltip
    divides by the number of its purchases alone, whatever the number of
    its sales: before formatting, the percentage shown for a slice of
    value raw is raw over the purchase count, times 100. *)
Theorem item_tooltip_ignores_sales (df : list row) (d : item_detail) (raw : Q) :
  In d (item_details (cs2_df df)) ->
  (0 < typed_rows_of (item_market_name d) "purchase" (cs2_df df))%nat ->
  item_tooltip_divisor (type_breakdown d)
  = js_count (typed_rows_of (item_market_name d) "purchase" (cs2_df df))
  /\ js_eq (item_tooltip_percent (JsNumber raw) (type_breakdown d))
       (JsNumber
          (raw / inject_Z (Z.of_nat
                   (typed_rows_of (item_market_name d) "purchase" (cs2_df df)))
           * 100)).
Proof.
  unfold item_details, groupby. rewrite map_map. intros H Hpos.
  apply in_map_iff in H as [k [<- _]].
  cbn [type_breakdown item_market_name fst snd] in *.
  rewrite rows_of_key_item.
  set (xs := somes (map type_ (item_rows k (cs2_df df)))).
  set (p := typed_rows_of k "purchase" (cs2_df df)) in *.
  assert (G : js_get "purchase" (value_counts xs) = js_count p).
  { apply js_get_present; [apply value_counts_keys_NoDup|].
    apply value_counts_In. split; [|exact Hpos].
    unfold p, typed_rows_of, xs. now rewrite count_of_cells. }
  assert (T : Qeq_bool (inject_Z (Z.of_nat p)) 0 = false)
    by now apply Qeq_bool_false, count_nonzero.
  assert (D : item_tooltip_divisor (value_counts xs) = js_count p).
  { unfold item_tooltip_divisor, js_or. rewrite G.
    unfold js_count. cbn [js_truthy]. rewrite T. cbn [negb js_truthy].
    now rewrite T. }
  split; [exact D|].
  unfold item_tooltip_percent. rewrite D. unfold js_count, js_div.
  cbn [js_to_number]. rewrite T. cbn [js_mul js_to_number js_eq]. reflexivity.
Qed.

Lemma item_tooltip_ignores_sales_witness :
  item_tooltip_divisor [("purchase", 1%nat)]
  = js_count (typed_rows_of "Fracture Case" "purchase" (cs2_df (rows sample_frame)))
  /\ js_eq (item_tooltip_percent (JsNumber 1) [("purchase", 1%nat)])
       (JsNumber
          (1 / inject_Z (Z.of_nat
                 (typed_rows_of "Fracture Case" "purchase"
                    (cs2_df (rows sample_frame))))
           * 100)).
Proof.
  apply (item_tooltip_ignores_sales (rows sample_frame)
           (mkItemDetail "Fracture Case" 1 (Div100 (GroupSum [(21 # 2)%Q]))
                         [("purchase", 1%nat)])
           1%Q).
  - vm_compute. right. left. reflexivity.
  - vm_compute. lia.
Defined.

(** An item bought twice and sold three times: the tooltip shows 100
    percent for the purchases and 150 percent for the sales. *)
Example item_tooltip_two_bought_three_sold :
  js_eq (item_tooltip_percent (JsNumber 2) [("sale", 3%nat); ("purchase", 2%nat)])
        (JsNumber 100)
  /\ js_eq (item_tooltip_percent (JsNumber 3) [("sale", 3%nat); ("purchase", 2%nat)])
           (JsNumber 150).
Proof. split; vm_compute; reflexivity. Qed.

(** ** Lines 122-126: the bar data when both types occur *)

(** X20.  When the frame has a purchase and a sale, the bar data is
    produced and holds exactly one record per category that occurs in the
    frame, also for a category whose rows are all of another type, in
    strictly ascending order of category; spent is the sum of the
    purchase prices of the category over 100 and earned the sum of its
    sale prices over 100, and for a pair of category and type without
    rows it is the fill value 0 over 100. *)
Theorem bar_data_records (df : list row) :
  has_type "purchase" df = true -> has_type "sale" df = true ->
  exists recs,
    bar_data df = Ok recs
    /\ NoDup (map Category recs)
    /\ ascending String.compare (map Category recs)
    /\ (forall c, In c (map Category recs) <-> occurring_category c df)
    /\ (forall rec, In rec recs ->
          spent rec = category_amount df (Category rec) "purchase"
          /\ earned rec = category_amount df (Category rec) "sale"
          /\ (forall t,
                category_rows (Category rec) t df = [] ->
                category_amount df (Category rec) t = Div100 (Cell 0))
          /\ (forall t,
                category_rows (Category rec) t df <> [] ->
                category_amount df (Category rec) t =
                Div100 (GroupSum (price_values (category_rows (Category rec) t df))))).
Proof.
  intros Hp Hs. exists (pivot_records (melted df)).
  assert (E : bar_data df = Ok (pivot_records (melted df))).
  { rewrite bar_data_unfold, Hp, Hs. reflexivity. }
  destruct (bar_data_spec df _ E) as [_ [_ [Hnd [Hocc Hrec]]]].
  split; [exact E|]. split; [exact Hnd|]. split; [|split; [exact Hocc|]].
  - unfold pivot_records. rewrite map_map. cbn [Category]. rewrite map_id.
    apply (sorted_keys_ascending _ _ String.compare_antisym string_compare_trans).
  - intros rec Hin. destruct (Hrec rec Hin) as [Hsp Hea].
    split; [exact Hsp|]. split; [exact Hea|]. split; intros t Z.
    + now apply category_amount_no_rows.
    + unfold category_amount.
      destruct (category_rows (Category rec) t df); [now elim Z|reflexivity].
Qed.

Lemma bar_data_records_witness :
  exists recs,
    bar_data (cs2_df (rows sample_frame)) = Ok recs
    /\ NoDup (map Category recs)
    /\ ascending String.compare (map Category recs)
    /\ (forall c, In c (map Category recs)
                  <-> occurring_category c (cs2_df (rows sample_frame)))
    /\ (forall rec, In rec recs ->
          spent rec = category_amount (cs2_df (rows sample_frame)) (Category rec) "purchase"
          /\ earned rec = category_amount (cs2_df (rows sample_frame)) (Category rec) "sale"
          /\ (forall t,
                category_rows (Category rec) t (cs2_df (rows sample_frame)) = [] ->
                category_amount (cs2_df (rows sample_frame)) (Category rec) t
                = Div100 (Cell 0))
          /\ (forall t,
                category_rows (Category rec) t (cs2_df (rows sample_frame)) <> [] ->
                category_amount (cs2_df (rows sample_frame)) (Category rec) t =
                Div100 (GroupSum (price_values
                                    (category_rows (Category rec) t
                                       (cs2_df (rows sample_frame))))))).
Proof.
  apply (bar_data_records (cs2_df (rows sample_frame))); reflexivity.
Defined.

(** The bar data of the sample frame: the capsule was traded, neither
    bought nor sold, and its category has the fill value on both sides. *)
Example sample_bar_records :
  sample_bar =
  [mkBar "Capsules" (Div100 (Cell 0)) (Div100 (Cell 0));
   mkBar "Cases" (Div100 (GroupSum [(21 # 2)%Q])) (Div100 (Cell 0));
   mkBar "Weapons" (Div100 (Cell 0)) (Div100 (GroupSum [1050%Q]))].
Proof. vm_compute. reflexivity. Qed.
